(** * Drone Planner: the strip and photo-point planner of [src/strips.js]

    A shallow embedding of [calculateStrips] and the properties of its
    specification.

    Conventions of the embedding.

    - A JavaScript number is a [number]: [NaN], the two infinities, or a
      finite value carried as an exact rational.  Finite arithmetic is
      exact (no rounding, no overflow, no underflow) and zero is unsigned;
      the special values follow IEEE 754 as JavaScript does
      ([x / 0], [0 * Infinity], comparisons with [NaN], ...).
    - Turf.js is an external library.  Its operations are the fields of a
      record [turf.library], over which the planner is parameterised; a
      feature is identified with its coordinates, so the wrappers
      [turf.polygon], [turf.point] and [turf.lineString] are the identity.
      All operations are total: an exception raised inside Turf is outside
      the model.
    - A call either returns, throws an [Error] with a message, or never
      returns (a [for] loop whose bound is [Infinity]): type [outcome].
    - Names are those of the source.  Where a constant of the function has
      the name of a property of its arguments or of its result ([height],
      [frontlap], [sidelap], [minSegmentLength], [numStrips]) the constant
      takes a trailing underscore; the arrays [photoPoints] and
      [stripLines] while they are being filled are [l_photoPoints] and
      [l_stripLines]. *)

From Stdlib Require Import ZArith QArith Qround Qreduction Qabs.
From Stdlib Require Import List String Ascii Bool Lia Arith.
From Stdlib Require Import DecimalString Sorted.
Import ListNotations.

Local Open Scope Q_scope.

(** ** JavaScript numbers *)

Module JS.

Inductive number : Type :=
| NaN
| PInf
| NInf
| Fin (q : Q).

(** Finite results are kept in lowest terms, so that equal values are
    syntactically equal. *)
Definition fin (q : Q) : number := Fin (Qred q).

Definition of_Z (z : Z) : number := Fin (inject_Z z).
Definition of_nat (n : nat) : number := of_Z (Z.of_nat n).

Definition Qsign (q : Q) : Z := Z.sgn (Qnum q).

Definition inf_of_sign (s : Z) : number :=
  match s with
  | Z0 => NaN
  | Zpos _ => PInf
  | Zneg _ => NInf
  end.

Definition neg (a : number) : number :=
  match a with
  | NaN => NaN
  | PInf => NInf
  | NInf => PInf
  | Fin q => fin (- q)
  end.

Definition add (a b : number) : number :=
  match a, b with
  | NaN, _ | _, NaN => NaN
  | PInf, NInf | NInf, PInf => NaN
  | PInf, _ | _, PInf => PInf
  | NInf, _ | _, NInf => NInf
  | Fin x, Fin y => fin (x + y)
  end.

Definition sub (a b : number) : number := add a (neg b).

Definition mul (a b : number) : number :=
  match a, b with
  | NaN, _ | _, NaN => NaN
  | Fin x, Fin y => fin (x * y)
  | Fin x, PInf | PInf, Fin x => inf_of_sign (Qsign x)
  | Fin x, NInf | NInf, Fin x => inf_of_sign (- Qsign x)
  | PInf, PInf | NInf, NInf => PInf
  | PInf, NInf | NInf, PInf => NInf
  end.

Definition div (a b : number) : number :=
  match a, b with
  | NaN, _ | _, NaN => NaN
  | Fin x, Fin y =>
      if Qeq_bool y 0 then inf_of_sign (Qsign x) else fin (x / y)
  | Fin _, PInf | Fin _, NInf => Fin 0
  | PInf, Fin y => if (Qsign y <? 0)%Z then NInf else PInf
  | NInf, Fin y => if (Qsign y <? 0)%Z then PInf else NInf
  | _, _ => NaN
  end.

(** [a % b]: the remainder has the sign of the dividend. *)
Definition rem (a b : number) : number :=
  match a, b with
  | NaN, _ | _, NaN => NaN
  | PInf, _ | NInf, _ => NaN
  | Fin x, PInf | Fin x, NInf => Fin x
  | Fin x, Fin y =>
      if Qeq_bool y 0 then NaN
      else
        let t := x / y in
        let n := if Qle_bool 0 t then Qfloor t else Qceiling t in
        fin (x - y * inject_Z n)
  end.

(** [a < b] and [a <= b]; every comparison with [NaN] is false. *)
Definition ltb (a b : number) : bool :=
  match a, b with
  | NaN, _ | _, NaN => false
  | _, NInf => false
  | NInf, _ => true
  | PInf, _ => false
  | Fin _, PInf => true
  | Fin x, Fin y => negb (Qle_bool y x)
  end.

Definition leb (a b : number) : bool :=
  match a, b with
  | NaN, _ | _, NaN => false
  | NInf, _ => true
  | _, PInf => true
  | PInf, _ => false
  | _, NInf => false
  | Fin x, Fin y => Qle_bool x y
  end.

(** [Math.ceil] and [Math.floor]. *)
Definition ceil (a : number) : number :=
  match a with
  | Fin q => of_Z (Qceiling q)
  | _ => a
  end.

Definition floor (a : number) : number :=
  match a with
  | Fin q => of_Z (Qfloor q)
  | _ => a
  end.

(** Truthiness of a number: everything but [0] and [NaN]. *)
Definition truthy (a : number) : bool :=
  match a with
  | NaN => false
  | Fin q => negb (Qeq_bool q 0)
  | _ => true
  end.

(** [a || d] on numbers. *)
Definition or (a d : number) : number := if truthy a then a else d.

(** [x || d] where [x] is a property that may be absent. *)
Definition or_undefined (x : option number) (d : number) : number :=
  match x with
  | Some a => or a d
  | None => d
  end.

(** [parseFloat(a.toFixed(2))]: the nearest multiple of 1/100, a tie going
    away from zero. *)
Definition toFixed2 (a : number) : number :=
  match a with
  | Fin q =>
      let n := Qfloor (Qabs q * 100 + (1 # 2)) in
      fin (inject_Z (Z.sgn (Qnum q) * n) / 100)
  | _ => a
  end.

(** The number of times the body of [for (let i = 0; i < n; i++)] runs;
    [None] when the loop never ends. *)
Definition iterations_lt (n : number) : option nat :=
  match n with
  | PInf => None
  | Fin q => Some (Z.to_nat (Qceiling q))
  | _ => Some 0%nat
  end.

(** The same for [for (let s = 0; s <= n; s++)]. *)
Definition iterations_le (n : number) : option nat :=
  match n with
  | PInf => None
  | Fin q => Some (Z.to_nat (Qfloor q + 1))
  | _ => Some 0%nat
  end.

(** *** Values handed to [parseFloat] *)

Inductive value : Type :=
| Undefined
| Num (n : number)
| Str (s : string).

Definition is_white_space (c : ascii) : bool :=
  match c with
  | " "%char => true
  | "009"%char | "010"%char | "011"%char | "012"%char | "013"%char => true
  | _ => false
  end.

Fixpoint trim_start (s : string) : string :=
  match s with
  | String c r => if is_white_space c then trim_start r else s
  | EmptyString => s
  end.

Definition digit (c : ascii) : option Z :=
  let n := nat_of_ascii c in
  if ((48 <=? n) && (n <=? 57))%nat then Some (Z.of_nat (n - 48)) else None.

(** Reads the longest run of decimal digits: its value, its length, and
    what follows. *)
Fixpoint digits (s : string) (acc : Z) (len : nat) : Z * nat * string :=
  match s with
  | String c r =>
      match digit c with
      | Some d => digits r (acc * 10 + d)%Z (S len)
      | None => (acc, len, s)
      end
  | EmptyString => (acc, len, s)
  end.

Definition exponent_part (s : string) : Z :=
  match s with
  | String c r =>
      if (Ascii.eqb c "e" || Ascii.eqb c "E")%bool then
        match r with
        | String sg r' =>
            if Ascii.eqb sg "-" then
              let '(e, n, _) := digits r' 0%Z 0%nat in (- e)%Z
            else if Ascii.eqb sg "+" then
              let '(e, n, _) := digits r' 0%Z 0%nat in e
            else
              let '(e, n, _) := digits r 0%Z 0%nat in e
        | EmptyString => 0%Z
        end
      else 0%Z
  | EmptyString => 0%Z
  end.

(** The longest prefix that is a [StrUnsignedDecimalLiteral]. *)
Definition unsigned_literal (s : string) : number :=
  if prefix "Infinity" s then PInf
  else
    let '(i, ni, r1) := digits s 0%Z 0%nat in
    let '(f, nf, r2) :=
      match r1 with
      | String "."%char r => digits r 0%Z 0%nat
      | _ => (0%Z, 0%nat, r1)
      end in
    if ((ni =? 0) && (nf =? 0))%nat then NaN
    else
      let m := inject_Z (i * 10 ^ Z.of_nat nf + f) / inject_Z (10 ^ Z.of_nat nf) in
      fin (m * Qpower 10 (exponent_part r2)).

Definition parseFloat_string (s : string) : number :=
  match trim_start s with
  | String "-"%char r => neg (unsigned_literal r)
  | String "+"%char r => unsigned_literal r
  | t => unsigned_literal t
  end.

(** [parseFloat(v)]: the argument is first converted to a string, and a
    number prints as a literal that reads back as itself. *)
Definition parseFloat (v : value) : number :=
  match v with
  | Undefined => NaN
  | Num n => n
  | Str s => parseFloat_string s
  end.

(** A non-negative integer as a template literal prints it. *)
Definition toString (n : nat) : string :=
  NilEmpty.string_of_uint (Nat.to_uint n).

End JS.

Import JS.

Arguments fin : simpl never.

(** ** The geometry library *)

(** A position is [[lng, lat]]. *)
Definition Position : Type := number * number.
Definition LineCoords : Type := list Position.
Definition PolygonCoords : Type := list (list Position).
Definition BBox : Type := number * number * number * number.

Module turf.

(** The operations of Turf.js that [calculateStrips] calls.  Distances are
    in kilometers ([{ units: 'kilometers' }] at every call), bearings and
    angles in degrees, areas in square meters. *)
Record library : Type := {
  centroid : PolygonCoords -> Position;
  transformRotatePolygon : PolygonCoords -> number -> Position -> PolygonCoords;
  transformRotateLine : LineCoords -> number -> Position -> LineCoords;
  transformRotatePoint : Position -> number -> Position -> Position;
  bbox : PolygonCoords -> BBox;
  distance : Position -> Position -> number;
  destination : Position -> number -> number -> Position;
  lineSplit : LineCoords -> PolygonCoords -> list LineCoords;
  midpoint : Position -> Position -> Position;
  booleanPointInPolygon : Position -> PolygonCoords -> bool;
  length : LineCoords -> number;
  along : LineCoords -> number -> Position;
  area : PolygonCoords -> number
}.

End turf.

(** ** Arguments and results of [calculateStrips] *)

(** The survey area: an object with a [type] and [coordinates]. *)
Record GeoJSON : Type := {
  type : option string;
  coordinates : PolygonCoords
}.

(** The camera; every field may be absent ("can be partial"). *)
Record Drone : Type := {
  sensorWidth_px : option number;
  sensorHeight_px : option number;
  pixelSize_um : option number;
  focalLength_mm : option number
}.

(** The flight options.  The first four go through [parseFloat], so they
    may be numbers or strings; [minSegmentLength] is used as it is. *)
Record Options : Type := {
  height : value;
  frontlap : value;
  sidelap : value;
  direction : value;
  minSegmentLength : option number
}.

(** The defaults [drone = {}] and [options = {}]. *)
Definition empty_drone : Drone :=
  {| sensorWidth_px := None; sensorHeight_px := None;
     pixelSize_um := None; focalLength_mm := None |}.

Definition empty_options : Options :=
  {| height := Undefined; frontlap := Undefined; sidelap := Undefined;
     direction := Undefined; minSegmentLength := None |}.

Record PhotoPoint : Type := {
  lat : number;
  lng : number;
  stripIndex : nat;
  pointIndex : nat
}.

Record StripLine : Type := {
  id : string;
  line_coordinates : LineCoords
}.

Record SummaryStats : Type := {
  areaHa : number;
  numStrips : nat;
  numPhotos : nat;
  totalLengthKm : number;
  estTimeMin : number
}.

Record Result : Type := {
  photoPoints : list PhotoPoint;
  stripLines : list StripLine;
  summaryStats : SummaryStats
}.

Inductive outcome (A : Type) : Type :=
| Returns (a : A)
| Throws (message : string)
| Diverges.

Arguments Returns {A} a.
Arguments Throws {A} message.
Arguments Diverges {A}.

(** What a call returned, seen through [f]; nothing when it did not. *)
Definition returned {A : Type} (f : Result -> A) (o : outcome Result) : option A :=
  match o with
  | Returns r => Some (f r)
  | _ => None
  end.

Definition InputTypeError : string := "polygonGeoJSON must be a GeoJSON Polygon".
Definition MissingParameterError : string := "Missing sensor/pixel/focal/height parameters".

(** ** Loops *)

(** [features.forEach(callback)] over a state; [None] when a callback
    never returns. *)
Fixpoint forEach {A S : Type} (features : list A)
    (callback : A -> S -> option S) (s : S) : option S :=
  match features with
  | [] => Some s
  | x :: rest =>
      match callback x s with
      | Some s' => forEach rest callback s'
      | None => None
      end
  end.

(** [for (let i = 0; i < n; i++) body]. *)
Definition for_lt {S : Type} (n : number) (body : nat -> S -> option S)
    (s : S) : option S :=
  match iterations_lt n with
  | Some k => forEach (seq 0 k) body s
  | None => None
  end.

(** [for (let s = 0; s <= n; s++) body], with a body that always ends. *)
Definition for_le {S : Type} (n : number) (body : nat -> S -> S)
    (s : S) : option S :=
  match iterations_le n with
  | Some k => Some (fold_left (fun st i => body i st) (seq 0 k) s)
  | None => None
  end.

(** [coords[0]] and [coords[coords.length - 1]]; Turf's line strings have
    at least two positions, the default stands for [undefined]. *)
Definition undefined_position : Position := (NaN, NaN).
Definition first_position (c : LineCoords) : Position := nth 0 c undefined_position.
Definition last_position (c : LineCoords) : Position := last c undefined_position.

(** ** [calculateStrips] *)

(** The variables of the loop that the callbacks update. *)
Record Locals : Type := {
  l_photoPoints : list PhotoPoint;
  l_stripLines : list StripLine;
  totalStripLengthKm : number;
  actualStripCount : nat
}.

Section CalculateStrips.

Variable T : turf.library.
Variable polygonCoordinates : PolygonCoords.
Variable drone : Drone.
Variable options : Options.

Definition sensorW_px : number := or_undefined (sensorWidth_px drone) (Fin 0).
Definition sensorH_px : number := or_undefined (sensorHeight_px drone) (Fin 0).
Definition pixelSize_m : number :=
  mul (or_undefined (pixelSize_um drone) (Fin 0)) (Fin (1 # 1000000)).
Definition focal_m : number :=
  mul (or_undefined (focalLength_mm drone) (Fin 0)) (Fin (1 # 1000)).

Definition height_ : number := or (parseFloat (height options)) (Fin 0).
Definition frontlap_ : number := or (parseFloat (frontlap options)) (Fin (7 # 10)).
Definition sidelap_ : number := or (parseFloat (sidelap options)) (Fin (6 # 10)).
Definition dir : number := rem (or (parseFloat (direction options)) (Fin 0)) (Fin 360).
Definition minSegmentLength_ : number := or_undefined (minSegmentLength options) (Fin 1).

Definition sensorW_m : number := mul sensorW_px pixelSize_m.
Definition sensorH_m : number := mul sensorH_px pixelSize_m.

(** The guard of the second [throw]. *)
Definition missing_parameters : bool :=
  negb (truthy sensorW_m) || negb (truthy sensorH_m)
  || negb (truthy focal_m) || negb (truthy height_).

Definition footprintX : number := div (mul height_ sensorW_m) focal_m.
Definition footprintY : number := div (mul height_ sensorH_m) focal_m.

Definition poly : PolygonCoords := polygonCoordinates.
Definition centroid : Position := turf.centroid T poly.
Definition rotatedPoly : PolygonCoords :=
  turf.transformRotatePolygon T poly (neg dir) centroid.
Definition bbox : BBox := turf.bbox T rotatedPoly.

Definition stripSpacing : number := mul footprintX (sub (Fin 1) sidelap_).
Definition photoSpacing : number := mul footprintY (sub (Fin 1) frontlap_).

Definition bboxCenter : Position :=
  let '(b0, b1, b2, b3) := bbox in
  (div (add b0 b2) (Fin 2), div (add b1 b3) (Fin 2)).
Definition leftPoint : Position :=
  let '(b0, _, _, _) := bbox in (b0, snd bboxCenter).
Definition rightPoint : Position :=
  let '(_, _, b2, _) := bbox in (b2, snd bboxCenter).
Definition totalWidth_km : number := turf.distance T leftPoint rightPoint.
Definition totalWidth_m : number := mul totalWidth_km (Fin 1000).

(** [numStrips] as first computed, and after the [if (numStrips < 1)]. *)
Definition numStrips_estimate : number :=
  ceil (div (add totalWidth_m stripSpacing) stripSpacing).
Definition numStrips_ : number :=
  if ltb numStrips_estimate (Fin 1) then Fin 1 else numStrips_estimate.

Definition startPoint : Position :=
  turf.destination T leftPoint (div (neg stripSpacing) (Fin 1000)) (Fin 90).

(** The scan line of candidate strip [i] and its pieces. *)
Definition offsetPoint (i : nat) : Position :=
  let offset_m := mul (of_nat i) stripSpacing in
  turf.destination T startPoint (div offset_m (Fin 1000)) (Fin 90).
Definition scanLine (i : nat) : LineCoords :=
  let top := turf.destination T (offsetPoint i) (div (Fin 20000) (Fin 1000)) (Fin 0) in
  let bottom := turf.destination T (offsetPoint i) (div (Fin 20000) (Fin 1000)) (Fin 180) in
  [bottom; top].
Definition split (i : nat) : list LineCoords :=
  turf.lineSplit T (scanLine i) rotatedPoly.

(** The test that accepts a piece: its midpoint is in the rotated polygon. *)
Definition accepted (seg : LineCoords) : bool :=
  let segMid := turf.midpoint T (first_position seg) (last_position seg) in
  turf.booleanPointInPolygon T segMid rotatedPoly.

(** The point sampled at step [s] of a segment, rotated back. *)
Definition ptBack (seg : LineCoords) (s : nat) : Position :=
  let dist_km := div (mul (of_nat s) photoSpacing) (Fin 1000) in
  let ptOnSeg := turf.along T seg dist_km in
  turf.transformRotatePoint T ptOnSeg dir centroid.

(** The length of a segment in meters and the last sampling step. *)
Definition segLength_m (seg : LineCoords) : number :=
  mul (turf.length T seg) (Fin 1000).
Definition stepCount (seg : LineCoords) : number :=
  floor (div (segLength_m seg) photoSpacing).

(** The body of the sampling loop, on [photoPoints] and
    [pointIndexInStrip]. *)
Definition sample_step (seg : LineCoords) (actualStripCount : nat) (s : nat)
    (st : list PhotoPoint * nat) : list PhotoPoint * nat :=
  let '(photoPoints, pointIndexInStrip) := st in
  let coords := ptBack seg s in
  if turf.booleanPointInPolygon T coords poly then
    (photoPoints ++ [ {| lat := snd coords; lng := fst coords;
                         stripIndex := actualStripCount;
                         pointIndex := pointIndexInStrip |} ],
     S pointIndexInStrip)
  else st.

(** The callback of [split.features.forEach], on the loop variables and
    [stripSegments].  The array [latlngs] is computed and never read; it
    is left out. *)
Definition on_segment (i : nat) (seg : LineCoords) (st : Locals * nat)
    : option (Locals * nat) :=
  let '(v, stripSegments) := st in
  if accepted seg then
    let segBack := turf.transformRotateLine T seg dir centroid in
    let stripLines :=
      l_stripLines v ++
      [ {| id := toString i ++ "-" ++ toString (List.length (l_stripLines v));
           line_coordinates := segBack |} ] in
    let stripSegments := S stripSegments in
    let segLength_km := turf.length T seg in
    let total := add (totalStripLengthKm v) segLength_km in
    if ltb (segLength_m seg) minSegmentLength_ then
      Some ({| l_photoPoints := l_photoPoints v; l_stripLines := stripLines;
               totalStripLengthKm := total;
               actualStripCount := actualStripCount v |}, stripSegments)
    else
      match for_le (stepCount seg) (sample_step seg (actualStripCount v))
              (l_photoPoints v, 0%nat) with
      | Some (photoPoints, _) =>
          Some ({| l_photoPoints := photoPoints; l_stripLines := stripLines;
                   totalStripLengthKm := total;
                   actualStripCount := actualStripCount v |}, stripSegments)
      | None => None
      end
  else Some st.

(** The body of the loop over the candidate strips. *)
Definition on_strip (i : nat) (v : Locals) : option Locals :=
  match forEach (split i) (on_segment i) (v, 0%nat) with
  | Some (v', stripSegments) =>
      Some (if (0 <? stripSegments)%nat
            then {| l_photoPoints := l_photoPoints v';
                    l_stripLines := l_stripLines v';
                    totalStripLengthKm := totalStripLengthKm v';
                    actualStripCount := S (actualStripCount v') |}
            else v')
  | None => None
  end.

Definition initial : Locals :=
  {| l_photoPoints := []; l_stripLines := [];
     totalStripLengthKm := Fin 0; actualStripCount := 0%nat |}.

Definition strips_loop : option Locals := for_lt numStrips_ on_strip initial.

Definition summary (v : Locals) : SummaryStats :=
  let areaHa := div (turf.area T poly) (Fin 10000) in
  let estFlightTimeMin := mul (div (totalStripLengthKm v) (Fin (6 # 10))) (Fin 60) in
  {| areaHa := toFixed2 areaHa;
     numStrips := actualStripCount v;
     numPhotos := List.length (l_photoPoints v);
     totalLengthKm := toFixed2 (totalStripLengthKm v);
     estTimeMin := ceil estFlightTimeMin |}.

(** Everything after the first [throw]. *)
Definition calculateStrips_body : outcome Result :=
  if missing_parameters then Throws MissingParameterError
  else
    match strips_loop with
    | Some v =>
        Returns {| photoPoints := l_photoPoints v;
                   stripLines := l_stripLines v;
                   summaryStats := summary v |}
    | None => Diverges
    end.

End CalculateStrips.

Arguments on_segment : simpl never.
Arguments on_strip : simpl never.

(** The guard of the first [throw]:
    [!polygonGeoJSON || !polygonGeoJSON.type || polygonGeoJSON.type !== 'Polygon']. *)
Definition not_a_polygon (polygonGeoJSON : option GeoJSON) : bool :=
  match polygonGeoJSON with
  | None => true
  | Some g =>
      match type g with
      | None => true
      | Some t => (t =? "")%string || negb (t =? "Polygon")%string
      end
  end.

Definition calculateStrips (T : turf.library) (polygonGeoJSON : option GeoJSON)
    (drone : Drone) (options : Options) : outcome Result :=
  match polygonGeoJSON with
  | Some g =>
      if not_a_polygon polygonGeoJSON then Throws InputTypeError
      else calculateStrips_body T (coordinates g) drone options
  | None => Throws InputTypeError
  end.

(** ** A flat-earth double of the geometry library

    Used to run the planner on concrete inputs.  The earth is a plane on
    which one degree is 100 km along both axes; a polygon stands for its
    bounding rectangle; a rotation by 0 degrees leaves a feature unchanged
    (as in Turf) and no other angle is supported; bearings are 0, 90 or
    180 degrees; a line is a vertical segment given bottom first. *)

Module FlatEarth.

Definition km_per_degree : number := Fin 100.

Definition nmin (a b : number) : number := if ltb b a then b else a.
Definition nmax (a b : number) : number := if ltb a b then b else a.
Definition nabs (a : number) : number := if ltb a (Fin 0) then neg a else a.

Definition bbox_ring (ring : list Position) : BBox :=
  match ring with
  | [] => (Fin 0, Fin 0, Fin 0, Fin 0)
  | (x, y) :: rest =>
      fold_left
        (fun '(x0, y0, x1, y1) '(px, py) =>
           (nmin x0 px, nmin y0 py, nmax x1 px, nmax y1 py))
        rest (x, y, x, y)
  end.

Definition bbox (p : PolygonCoords) : BBox :=
  match p with
  | ring :: _ => bbox_ring ring
  | [] => (Fin 0, Fin 0, Fin 0, Fin 0)
  end.

Definition centroid (p : PolygonCoords) : Position :=
  let '(x0, y0, x1, y1) := bbox p in
  (div (add x0 x1) (Fin 2), div (add y0 y1) (Fin 2)).

Definition distance (a b : Position) : number :=
  mul km_per_degree
      (add (nabs (sub (fst a) (fst b))) (nabs (sub (snd a) (snd b)))).

Definition same (a b : number) : bool := leb a b && leb b a.

Definition destination (a : Position) (d bearing : number) : Position :=
  let deg := div d km_per_degree in
  if same bearing (Fin 90) then (add (fst a) deg, snd a)
  else if same bearing (Fin 0) then (fst a, add (snd a) deg)
  else if same bearing (Fin 180) then (fst a, sub (snd a) deg)
  else a.

Definition lineSplit (line : LineCoords) (p : PolygonCoords) : list LineCoords :=
  match line with
  | [bottom; top] =>
      let '(x0, y0, x1, y1) := bbox p in
      let x := fst bottom in
      if ltb x0 x && ltb x x1 && ltb (snd bottom) y0 && ltb y1 (snd top)
      then [ [bottom; (x, y0)]; [(x, y0); (x, y1)]; [(x, y1); top] ]
      else []
  | _ => []
  end.

Definition midpoint (a b : Position) : Position :=
  (div (add (fst a) (fst b)) (Fin 2), div (add (snd a) (snd b)) (Fin 2)).

Definition booleanPointInPolygon (a : Position) (p : PolygonCoords) : bool :=
  let '(x0, y0, x1, y1) := bbox p in
  leb x0 (fst a) && leb (fst a) x1 && leb y0 (snd a) && leb (snd a) y1.

Fixpoint length (line : LineCoords) : number :=
  match line with
  | a :: (b :: _) as rest => add (distance a b) (length rest)
  | _ => Fin 0
  end.

Definition along (line : LineCoords) (d : number) : Position :=
  match line with
  | [a; b] => (fst a, nmin (add (snd a) (div d km_per_degree)) (snd b))
  | _ => first_position line
  end.

Definition area (p : PolygonCoords) : number :=
  let '(x0, y0, x1, y1) := bbox p in
  mul (mul (mul (sub x1 x0) km_per_degree) (mul (sub y1 y0) km_per_degree))
      (Fin 1000000).

Definition lib : turf.library :=
  {| turf.centroid := centroid;
     turf.transformRotatePolygon := fun g _ _ => g;
     turf.transformRotateLine := fun g _ _ => g;
     turf.transformRotatePoint := fun g _ _ => g;
     turf.bbox := bbox;
     turf.distance := distance;
     turf.destination := destination;
     turf.lineSplit := lineSplit;
     turf.midpoint := midpoint;
     turf.booleanPointInPolygon := booleanPointInPolygon;
     turf.length := length;
     turf.along := along;
     turf.area := area |}.

(** A rectangle with its south-west corner at the origin, 1 km wide and
    0.6 km high. *)
Definition field : GeoJSON :=
  {| type := Some "Polygon"%string;
     coordinates :=
       [ [ (Fin 0, Fin 0); (Fin (1 # 100), Fin 0);
           (Fin (1 # 100), Fin (6 # 1000)); (Fin 0, Fin (6 # 1000));
           (Fin 0, Fin 0) ] ] |}.

(** A camera whose footprint at height [h] is [h] by [h] meters. *)
Definition square_camera : Drone :=
  {| sensorWidth_px := Some (Fin 1000); sensorHeight_px := Some (Fin 1000);
     pixelSize_um := Some (Fin 10); focalLength_mm := Some (Fin 10) |}.

(** The camera of the specification's scenario: 4000 x 3000 pixels of
    4.4 micrometers behind a 25 mm lens. *)
Definition survey_camera : Drone :=
  {| sensorWidth_px := Some (Fin 4000); sensorHeight_px := Some (Fin 3000);
     pixelSize_um := Some (Fin (44 # 10)); focalLength_mm := Some (Fin 25) |}.

Definition at_height (h : value) : Options :=
  {| height := h; frontlap := Undefined; sidelap := Undefined;
     direction := Undefined; minSegmentLength := None |}.

End FlatEarth.

(** ** The vocabulary of the properties *)

(** The survey area is present and its [type] is ['Polygon']. *)
Definition is_polygon (polygonGeoJSON : option GeoJSON) : Prop :=
  exists g, polygonGeoJSON = Some g /\ type g = Some "Polygon"%string.

(** A camera or height parameter that resolves to zero: it is missing,
    zero, or not a number. *)
Definition resolves_to_zero (a : number) : bool := negb (truthy a).

Definition with_frontlap (o : Options) (v : value) : Options :=
  {| height := height o; frontlap := v; sidelap := sidelap o;
     direction := direction o; minSegmentLength := minSegmentLength o |}.
Definition with_minSegmentLength (o : Options) (m : option number) : Options :=
  {| height := height o; frontlap := frontlap o; sidelap := sidelap o;
     direction := direction o; minSegmentLength := m |}.

Section Vocabulary.

Variable T : turf.library.
Variable c : PolygonCoords.
Variable d : Drone.
Variable o : Options.

(** The photo points kept from the positions [cs], numbered from [j]. *)
Fixpoint kept_points (strip j : nat) (cs : list Position) : list PhotoPoint :=
  match cs with
  | [] => []
  | p :: rest =>
      if turf.booleanPointInPolygon T p (poly c) then
        {| lat := snd p; lng := fst p; stripIndex := strip; pointIndex := j |}
        :: kept_points strip (S j) rest
      else kept_points strip j rest
  end.

(** The strip lines of the segments [segs] of candidate strip [i], the
    first one being number [k] of the output. *)
Fixpoint lines_from (i k : nat) (segs : list LineCoords) : list StripLine :=
  match segs with
  | [] => []
  | seg :: rest =>
      {| id := toString i ++ "-" ++ toString k;
         line_coordinates :=
           turf.transformRotateLine T seg (dir o) (centroid T c) |}
      :: lines_from i (S k) rest
  end.

(** A candidate strip is productive when one of its pieces is accepted. *)
Definition productive (i : nat) : bool :=
  existsb (accepted T c o) (split T c d o i).

(** Where a photo point comes from: a step of an accepted piece of
    candidate strip [i], rotated back and found inside the polygon. *)
Definition sampled_on (i : nat) (p : PhotoPoint) : Prop :=
  turf.booleanPointInPolygon T (lng p, lat p) (poly c) = true /\
  exists seg s,
    In seg (split T c d o i) /\ accepted T c o seg = true /\
    (lng p, lat p) = ptBack T c d o seg s.

(** The accepted pieces of the candidate strips [l], in output order. *)
Definition accepted_segments (l : list nat) : list LineCoords :=
  flat_map (fun i => filter (accepted T c o) (split T c d o i)) l.

(** Where a strip line comes from: an accepted piece of candidate strip
    [i], rotated back, pushed as element [k] of [stripLines]. *)
Definition emitted_from (i k : nat) (sl : StripLine) : Prop :=
  exists seg,
    In seg (split T c d o i) /\ accepted T c o seg = true /\
    id sl = (toString i ++ "-" ++ toString k)%string /\
    line_coordinates sl = turf.transformRotateLine T seg (dir o) (centroid T c).

End Vocabulary.

(** The ids with the second component counted within each strip, as the
    specification words them. *)
Definition ids_restarting_per_strip (T : turf.library) (c : PolygonCoords)
    (d : Drone) (o : Options) (n : nat) : list string :=
  flat_map
    (fun i =>
       map (fun j => (toString i ++ "-" ++ toString j)%string)
         (seq 0 (List.length (filter (accepted T c o) (split T c d o i)))))
    (seq 0 n).

(** ** The output in closed form *)

Section ClosedForm.

Variable T : turf.library.
Variable c : PolygonCoords.
Variable d : Drone.
Variable o : Options.

(** The strip lines of the candidate strips [l] when [k] lines are already
    in the output. *)
Fixpoint all_lines (l : list nat) (k : nat) : list StripLine :=
  match l with
  | [] => []
  | i :: rest =>
      let segs := filter (accepted T c o) (split T c d o i) in
      lines_from T c o i k segs ++ all_lines rest (k + List.length segs)
  end.

(** The photo points of one accepted piece: numbered 0, 1, 2, ... and all
    of the same strip. *)
Definition one_batch (b : list PhotoPoint) : Prop :=
  map pointIndex b = seq 0 (List.length b) /\
  exists strip, Forall (fun p => stripIndex p = strip) b.


End ClosedForm.

(** ** The elevation module: [fetchElevationsBatch]

    The function is [async]; its awaits are sequential, so it is modelled
    by the value its promise resolves to.  The network is a parameter:
    [fetch k locations] is what the [k]-th request of the call, carrying
    [locations], comes to.  The progress text written to the page and the
    console output do not reach the result and are left out.  The outer
    [catch] is reached only when reading the points throws, which the
    type of the argument excludes. *)

Module Elevation.

(** An element of [points]: its [lat] and [lng] properties, of any type. *)
Record Point : Type := {
  lat : value;
  lng : value
}.

(** [{ latitude: p.lat, longitude: p.lng }] *)
Definition Location : Type := (value * value)%type.

(** What a request comes to.  [Rejected]: the fetch fails, is aborted
    after the timeout, answers with a status that is not ok, or with a
    body that is not JSON.  [Answered results]: the parsed body; [results]
    is [None] when the body is falsy or its [results] is not an array, and
    else gives the [elevation] property of each entry, [None] for an entry
    that is [null] or [undefined] (reading its property throws). *)
Inductive response : Type :=
| Rejected
| Answered (results : option (list (option value))).

(** [typeof x === 'number' && !isNaN(x)] *)
Definition is_number (x : value) : bool :=
  match x with
  | Num NaN => false
  | Num _ => true
  | _ => false
  end.

Definition valid (p : Point) : bool :=
  is_number (lat p) && is_number (lng p).

(** [(typeof r.elevation === 'number' && !isNaN(r.elevation)) ? r.elevation : 0] *)
Definition elevation_or_0 (elevation : value) : number :=
  match elevation with
  | Num NaN => Fin 0
  | Num n => n
  | _ => Fin 0
  end.

(** [data.results.map(...)]: [None] when an entry makes it throw. *)
Fixpoint results_map (results : list (option value)) : option (list number) :=
  match results with
  | [] => Some []
  | None :: _ => None
  | Some elevation :: rest =>
      match results_map rest with
      | Some es => Some (elevation_or_0 elevation :: es)
      | None => None
      end
  end.

(** [new Array(n).fill(0)] *)
Definition zeros (n : nat) : list number := repeat (Fin 0) n.

(** What one turn of the loop pushes to [allElevations]. *)
Definition pushed (r : response) (batch_length : nat) : list number :=
  match r with
  | Answered (Some results) =>
      match results_map results with
      | Some es => es
      | None => zeros batch_length
      end
  | Answered None => zeros batch_length
  | Rejected => zeros batch_length
  end.

Definition batchSize : nat := 500.

(** [a.slice(i, j)] for [i <= j]. *)
Definition slice {A : Type} (a : list A) (i j : nat) : list A :=
  firstn (j - i) (skipn i a).

(** The number of turns of [for (let i = 0; i < total; i += batchSize)]. *)
Definition turns (total : nat) : nat := (total + (batchSize - 1)) / batchSize.

Section Fetch.

Variable fetch : nat -> list Location -> response.

Definition batch (validPoints : list Point) (k : nat) : list Point :=
  let i := (k * batchSize)%nat in
  slice validPoints i (i + batchSize).

Definition locations (b : list Point) : list Location :=
  map (fun p => (lat p, lng p)) b.

(** The loop over the batches, on [allElevations]. *)
Definition batch_loop (validPoints : list Point) : list number :=
  fold_left
    (fun allElevations k =>
       let b := batch validPoints k in
       allElevations ++ pushed (fetch k (locations b)) (List.length b))
    (seq 0 (turns (List.length validPoints))) [].

(** [points.map(...)] with the counter [elevationIdx]; an index past the
    end of [allElevations] reads [undefined]. *)
Fixpoint aligned (points : list Point) (allElevations : list number)
    (elevationIdx : nat) : list (option number) :=
  match points with
  | [] => []
  | pt :: rest =>
      if valid pt
      then nth_error allElevations elevationIdx
           :: aligned rest allElevations (S elevationIdx)
      else Some (Fin 0) :: aligned rest allElevations elevationIdx
  end.

(** The elevations the promise resolves to; [None] is [undefined].  The
    argument is [None] when [points] is falsy. *)
Definition fetchElevationsBatch (points : option (list Point)) : list (option number) :=
  match points with
  | None => []
  | Some [] => []
  | Some pts =>
      let validPoints := filter valid pts in
      let allElevations := batch_loop validPoints in
      if (List.length validPoints =? List.length pts)%nat
      then map Some allElevations
      else aligned pts allElevations 0
  end.

End Fetch.

(** *** [addElevationData]

    The function reads globals of the page and writes to the photo point
    objects and to [window.stripElevations].  The photo point objects
    live in a heap, and the arrays [allPhotoPoints] and
    [filteredPhotoPoints] hold references into it, so that an object in
    both arrays is one object.  The Leaflet layer group is the list of
    its layers in the order [eachLayer] visits them. *)

(** A photo point object: its coordinates and the two properties the
    function sets ([None] while a property is absent). *)
Record PhotoObject : Type := {
  coords : Point;
  elevation : option number;
  absoluteAltitude : option number
}.

(** An element of [window.stripElevations[layerId]]. *)
Record StripPoint : Type := {
  vertex : Point;
  strip_elevation : number;
  strip_absoluteAltitude : number
}.

(** A layer: whether it is an [L.Polyline], its [L.stamp] and its
    [getLatLngs()]. *)
Record Layer : Type := {
  is_Polyline : bool;
  stamp : nat;
  getLatLngs : list Point
}.

(** The globals the function reads; [None] is [undefined] (for the
    arrays also: not an array).  [heightInput] gives [heightInput.value]. *)
Record Globals : Type := {
  allPhotoPoints : option (list nat);
  filteredPhotoPoints : option (list nat);
  layerStrips : option (list Layer);
  heightInput : option value
}.

(** What the function can change. *)
Record Page : Type := {
  heap : list PhotoObject;
  stripElevations : option (list (nat * list StripPoint))
}.

Definition no_object : PhotoObject :=
  {| coords := {| lat := Undefined; lng := Undefined |};
     elevation := None; absoluteAltitude := None |}.

Definition read (h : list PhotoObject) (a : nat) : PhotoObject := nth a h no_object.

Fixpoint write (h : list PhotoObject) (a : nat) (x : PhotoObject) : list PhotoObject :=
  match h, a with
  | [], _ => []
  | _ :: rest, O => x :: rest
  | y :: rest, S a' => y :: write rest a' x
  end.

(** [a === b] *)
Definition strict_eq (a b : value) : bool :=
  match a, b with
  | Undefined, Undefined => true
  | Num PInf, Num PInf => true
  | Num NInf, Num NInf => true
  | Num (Fin x), Num (Fin y) => Qeq_bool x y
  | Str s, Str t => String.eqb s t
  | _, _ => false
  end.

(** [obj[key] = x] on an object used as a map. *)
Fixpoint assign {B : Type} (obj : list (nat * B)) (key : nat) (x : B) : list (nat * B) :=
  match obj with
  | [] => [(key, x)]
  | (k, y) :: rest =>
      if (k =? key)%nat then (k, x) :: rest else (k, y) :: assign rest key x
  end.

(** What a layer adds to the points to fetch: its vertices when it is a
    polyline. *)
Definition polyline_vertices (layer : Layer) : list Point :=
  if is_Polyline layer then getLatLngs layer else [].

Section AddElevationData.

Variable fetch : nat -> list Location -> response.
Variable G : Globals.

(** The vertices of the polylines of the layer group, layer by layer. *)
Definition strip_vertices : list Point :=
  match layerStrips G with
  | Some layers => flat_map polyline_vertices layers
  | None => []
  end.

Definition pointsToFetch (all : list nat) (h : list PhotoObject) : list Point :=
  map (fun a => coords (read h a)) all ++ strip_vertices.

Definition flightHeight : number :=
  match heightInput G with
  | Some v => or (parseFloat v) (Fin 0)
  | None => Fin 0
  end.

(** [elevations[idx] || 0] *)
Definition elevation_at (elevations : list (option number)) (idx : nat) : number :=
  match nth_error elevations idx with
  | Some (Some e) => or e (Fin 0)
  | _ => Fin 0
  end.

(** [allPhotoPoints.forEach((pt, idx) => ...)] from index [idx] on. *)
Fixpoint apply_to_photos (elevations : list (option number)) (all : list nat)
    (idx : nat) (h : list PhotoObject) : list PhotoObject :=
  match all with
  | [] => h
  | pt :: rest =>
      let e := elevation_at elevations idx in
      apply_to_photos elevations rest (S idx)
        (write h pt {| coords := coords (read h pt);
                       elevation := Some e;
                       absoluteAltitude := Some (add e flightHeight) |})
  end.

(** [allPhotoPoints.find((p) => p.lat === pt.lat && p.lng === pt.lng)] *)
Definition find_original (all : list nat) (h : list PhotoObject) (pt : nat) : option nat :=
  find (fun p =>
          strict_eq (lat (coords (read h p))) (lat (coords (read h pt)))
          && strict_eq (lng (coords (read h p))) (lng (coords (read h pt))))
    all.

(** [filteredPhotoPoints.forEach((pt) => ...)] *)
Fixpoint update_filtered (all filtered : list nat) (h : list PhotoObject)
    : list PhotoObject :=
  match filtered with
  | [] => h
  | pt :: rest =>
      update_filtered all rest
        (match find_original all h pt with
         | Some originalPoint =>
             write h pt {| coords := coords (read h pt);
                           elevation := elevation (read h originalPoint);
                           absoluteAltitude := absoluteAltitude (read h originalPoint) |}
         | None => h
         end)
  end.

(** [latlngs.map((ll, idx) => ...)] from index [idx] on. *)
Fixpoint stripPoints (elevations : list (option number)) (elevationIndex : nat)
    (latlngs : list Point) (idx : nat) : list StripPoint :=
  match latlngs with
  | [] => []
  | ll :: rest =>
      let e := elevation_at elevations (elevationIndex + idx) in
      {| vertex := ll; strip_elevation := e;
         strip_absoluteAltitude := add e flightHeight |}
      :: stripPoints elevations elevationIndex rest (S idx)
  end.

(** The second [layerStrips.eachLayer], on [window.stripElevations] and
    [elevationIndex]. *)
Fixpoint store_strips (elevations : list (option number)) (layers : list Layer)
    (elevationIndex : nat) (obj : list (nat * list StripPoint))
    : list (nat * list StripPoint) :=
  match layers with
  | [] => obj
  | layer :: rest =>
      if is_Polyline layer then
        store_strips elevations rest
          (elevationIndex + List.length (getLatLngs layer))
          (assign obj (stamp layer)
             (stripPoints elevations elevationIndex (getLatLngs layer) 0))
      else store_strips elevations rest elevationIndex obj
  end.

(** The page once the promise of [addElevationData()] has resolved. *)
Definition addElevationData (page : Page) : Page :=
  match allPhotoPoints G with
  | None => page
  | Some [] => page
  | Some all =>
      let elevations := fetchElevationsBatch fetch (Some (pointsToFetch all (heap page))) in
      let h1 := apply_to_photos elevations all 0 (heap page) in
      let h2 :=
        match filteredPhotoPoints G with
        | Some (pt :: rest) => update_filtered all (pt :: rest) h1
        | _ => h1
        end in
      {| heap := h2;
         stripElevations :=
           Some (match layerStrips G with
                 | Some layers => store_strips elevations layers (List.length all) []
                 | None => []
                 end) |}
  end.

End AddElevationData.

End Elevation.

(** A page to run the elevation module on: two photo points, the second
    one also in the filtered array; a polyline of two vertices and a
    marker in the layer group; a height field reading 100. *)
Module SamplePage.

Import Elevation.

Definition point (la lo : Z) : Point :=
  {| lat := Num (Fin (inject_Z la)); lng := Num (Fin (inject_Z lo)) |}.

Definition page : Page :=
  {| heap := [ {| coords := point 48 11; elevation := None; absoluteAltitude := None |};
               {| coords := point 49 12; elevation := None; absoluteAltitude := None |} ];
     stripElevations := None |}.

Definition globals : Globals :=
  {| allPhotoPoints := Some [0%nat; 1%nat];
     filteredPhotoPoints := Some [1%nat];
     layerStrips :=
       Some [ {| is_Polyline := true; stamp := 7%nat;
                 getLatLngs := [point 48 11; point 50 13] |};
              {| is_Polyline := false; stamp := 8%nat; getLatLngs := [] |} ];
     heightInput := Some (Str "100") |}.

(** A service that answers every location with ten times its latitude. *)
Definition ground (loc : Location) : value :=
  match fst loc with
  | Num n => Num (mul (Fin 10) n)
  | _ => Undefined
  end.

Definition service (_ : nat) (locs : list Location) : response :=
  Answered (Some (map (fun loc => Some (ground loc)) locs)).

Definition down (_ : nat) (_ : list Location) : response := Rejected.

End SamplePage.

(** ** The KML module: [escapeXml] *)

Module Kml.

(** [s.replace(/c/g, by_)] for a pattern of one character and a
    replacement without [$]. *)
Fixpoint replace_all (c : ascii) (by_ : string) (s : string) : string :=
  match s with
  | EmptyString => EmptyString
  | String x rest =>
      if Ascii.eqb x c then (by_ ++ replace_all c by_ rest)%string
      else String x (replace_all c by_ rest)
  end.

(** [escapeXml(str)]; the argument is [None] for [undefined] and [null].
    The replacements are those of the source: each puts the character it
    matches. *)
Definition escapeXml (str : option string) : string :=
  match str with
  | None => EmptyString
  | Some s =>
      replace_all ">" ">" (replace_all "<" "<" (replace_all "&" "&" s))
  end.

End Kml.

(** ** The embedding on examples *)

Example parseFloat_ex1 : parseFloat (Str " 12.5e1x") = Fin 125.
Proof. vm_compute. reflexivity. Qed.
Example parseFloat_ex2 : parseFloat (Str "-.5") = Fin (-1 # 2).
Proof. vm_compute. reflexivity. Qed.
Example parseFloat_ex3 : parseFloat (Str "abc") = NaN.
Proof. vm_compute. reflexivity. Qed.
Example parseFloat_ex4 : parseFloat (Str "1e") = Fin 1.
Proof. vm_compute. reflexivity. Qed.
Example parseFloat_ex5 : parseFloat (Str "7.") = Fin 7.
Proof. vm_compute. reflexivity. Qed.
Example parseFloat_ex6 : parseFloat (Str ".") = NaN.
Proof. vm_compute. reflexivity. Qed.
Example parseFloat_ex7 : parseFloat (Str "-Infinity") = NInf.
Proof. vm_compute. reflexivity. Qed.
Example parseFloat_ex8 : parseFloat (Str "2e-2") = Fin (1 # 50).
Proof. vm_compute. reflexivity. Qed.
Example toString_ex : toString 0 = "0"%string /\ toString 27 = "27"%string.
Proof. vm_compute. split; reflexivity. Qed.
Example rem_ex : rem (Fin 370) (Fin 360) = Fin 10 /\ rem (Fin (-370)) (Fin 360) = Fin (-10).
Proof. vm_compute. split; reflexivity. Qed.
Example toFixed2_ex : toFixed2 (Fin (12345 # 10000)) = Fin (123 # 100) /\ toFixed2 (Fin (-5 # 1000)) = Fin (-1 # 100).
Proof. vm_compute. split; reflexivity. Qed.

(** ** Facts about numbers *)

Section NumberFacts.









Lemma truthy_or_0 (a : number) : truthy (or a (Fin 0)) = truthy a.
Proof. unfold or. now destruct (truthy a) eqn:E. Qed.



End NumberFacts.

(** ** The two checks on the arguments *)

Lemma not_a_polygon_false (pg : option GeoJSON) :
  not_a_polygon pg = false <-> is_polygon pg.
Proof.
  unfold not_a_polygon, is_polygon. split.
  - destruct pg as [g|]; [|discriminate].
    destruct (type g) as [t|] eqn:E; [|discriminate].
    intros H. apply orb_false_iff in H as [_ H].
    apply negb_false_iff, String.eqb_eq in H. subst. now exists g.
  - intros (g & -> & ->). reflexivity.
Qed.





(** A camera parameter resolves to zero when it is absent, [NaN] or zero;
    the height when it does not parse to a non-zero number. *)
Lemma resolves_to_zero_parameter (x : option number) :
  resolves_to_zero (or_undefined x (Fin 0)) = true <->
  x = None \/ x = Some NaN \/ exists q, x = Some (Fin q) /\ q == 0.
Proof.
  unfold resolves_to_zero. split.
  - destruct x as [[| | |q]|]; simpl; auto; try discriminate.
    unfold or. simpl. destruct (Qeq_bool q 0) eqn:E; simpl; [|now rewrite E].
    intros _. right. right. exists q. split; [reflexivity|].
    now apply Qeq_bool_iff.
  - intros [->|[->|(q & -> & Hq)]]; try reflexivity.
    simpl. now rewrite truthy_or_0; simpl; apply Qeq_bool_iff in Hq; rewrite Hq.
Qed.

Lemma resolves_to_zero_height (o : Options) :
  resolves_to_zero (height_ o) = true <-> truthy (parseFloat (height o)) = false.
Proof.
  unfold resolves_to_zero, height_. rewrite truthy_or_0.
  destruct (truthy (parseFloat (height o))); simpl; intuition congruence.
Qed.




(** ** Options replaced by their defaults *)




(** ** What a call that returns has computed *)

Lemma calculateStrips_returns T pg d o r :
  calculateStrips T pg d o = Returns r ->
  exists g v,
    pg = Some g /\ is_polygon pg /\ missing_parameters d o = false /\
    strips_loop T (coordinates g) d o = Some v /\
    r = {| photoPoints := l_photoPoints v;
           stripLines := l_stripLines v;
           summaryStats := summary T (coordinates g) v |}.
Proof.
  unfold calculateStrips. destruct pg as [g|]; [|discriminate].
  destruct (not_a_polygon (Some g)) eqn:Hp; [discriminate|].
  unfold calculateStrips_body.
  destruct (missing_parameters d o) eqn:Hm; [discriminate|].
  destruct (strips_loop T (coordinates g) d o) as [v|] eqn:Hl; [|discriminate].
  intros H; inversion H; subst.
  exists g, v. repeat split; auto. now apply not_a_polygon_false.
Qed.


(** The flight time is computed from the unrounded length, divided by
    0.6 and then multiplied by 60. *)
Lemma estTimeMin_computed T pg d o r :
  calculateStrips T pg d o = Returns r ->
  exists g v,
    pg = Some g /\ strips_loop T (coordinates g) d o = Some v /\
    totalLengthKm (summaryStats r) = toFixed2 (totalStripLengthKm v) /\
    estTimeMin (summaryStats r) =
      ceil (mul (div (totalStripLengthKm v) (Fin (6 # 10))) (Fin 60)).
Proof.
  intros H. apply calculateStrips_returns in H as (g & v & -> & _ & _ & Hl & ->).
  exists g, v. repeat split; auto.
Qed.

(** C1. On a field crossed by a single strip of 0.6 km the call returns
    [totalLengthKm = 0.6] and [estTimeMin = 60], where the ceiling of the
    length divided by 0.6 km per minute is 1. *)
Theorem estTimeMin_is_sixty_times_the_minutes :
  exists r,
    calculateStrips FlatEarth.lib (Some FlatEarth.field) FlatEarth.square_camera
      (FlatEarth.at_height (Num (Fin 1500))) = Returns r
    /\ totalLengthKm (summaryStats r) = Fin (3 # 5)
    /\ ceil (div (totalLengthKm (summaryStats r)) (Fin (6 # 10))) = Fin 1
    /\ estTimeMin (summaryStats r) = Fin 60.
Proof.
  eexists. split; [vm_compute; reflexivity|].
  vm_compute. repeat split.
Qed.

(** ** No bound on the number of candidate strips *)




(** ** The segments of a strip and their photo points *)

Section Segments.

Variable T : turf.library.
Variable c : PolygonCoords.
Variable d : Drone.
Variable o : Options.

Lemma sampling_loop (seg : LineCoords) (strip : nat) :
  forall steps pts j,
    fold_left (fun st s => sample_step T c d o seg strip s st) steps (pts, j) =
    (pts ++ kept_points T c strip j (map (ptBack T c d o seg) steps),
     (j + List.length (kept_points T c strip j (map (ptBack T c d o seg) steps)))%nat).
Proof.
  induction steps as [|s steps IH]; intros pts j; simpl.
  - now rewrite app_nil_r, Nat.add_0_r.
  - destruct (turf.booleanPointInPolygon T (ptBack T c d o seg s) (poly c)).
    + rewrite IH. simpl. rewrite <- app_assoc. simpl.
      f_equal. lia.
    + apply IH.
Qed.

Lemma kept_points_In strip :
  forall cs j p,
    In p (kept_points T c strip j cs) ->
    turf.booleanPointInPolygon T (lng p, lat p) (poly c) = true /\
    In (lng p, lat p) cs /\ stripIndex p = strip.
Proof.
  induction cs as [|q cs IH]; simpl; intros j p H; [contradiction|].
  destruct (turf.booleanPointInPolygon T q (poly c)) eqn:E.
  - destruct H as [<-|H].
    + simpl. rewrite <- surjective_pairing. auto.
    + destruct (IH _ _ H) as (? & ? & ?). auto.
  - destruct (IH _ _ H) as (? & ? & ?). auto.
Qed.



(** What the callback does to the loop variables. *)
Lemma on_segment_rejected i seg st :
  accepted T c o seg = false -> on_segment T c d o i seg st = Some st.
Proof. unfold on_segment. destruct st. now intros ->. Qed.

Lemma on_segment_accepted i seg v n st' :
  accepted T c o seg = true ->
  on_segment T c d o i seg (v, n) = Some st' ->
  exists pts,
    st' = ({| l_photoPoints := l_photoPoints v ++ pts;
              l_stripLines := l_stripLines v ++ lines_from T c o i (List.length (l_stripLines v)) [seg];
              totalStripLengthKm := add (totalStripLengthKm v) (turf.length T seg);
              actualStripCount := actualStripCount v |}, S n) /\
    ((ltb (segLength_m T seg) (minSegmentLength_ o) = true /\ pts = []) \/
     (ltb (segLength_m T seg) (minSegmentLength_ o) = false /\
      exists k, iterations_le (stepCount T d o seg) = Some k /\
        pts = kept_points T c (actualStripCount v) 0
                (map (ptBack T c d o seg) (seq 0 k)))).
Proof.
  intros Ha. unfold on_segment. rewrite Ha.
  destruct (ltb (segLength_m T seg) (minSegmentLength_ o)) eqn:Hlt.
  - intros H; inversion H; subst. exists []. rewrite app_nil_r. auto.
  - unfold for_le.
    destruct (iterations_le (stepCount T d o seg)) as [k|] eqn:Hk; [|discriminate].
    rewrite sampling_loop.
    intros H; inversion H; subst.
    eexists. split; [reflexivity|]. right. split; [reflexivity|].
    exists k. auto.
Qed.

Lemma lines_from_length i : forall l k, List.length (lines_from T c o i k l) = List.length l.
Proof. induction l; simpl; intros; [reflexivity|]. now rewrite IHl. Qed.

Lemma lines_from_nth i :
  forall l k j sl,
    nth_error (lines_from T c o i k l) j = Some sl ->
    exists seg,
      nth_error l j = Some seg /\
      id sl = (toString i ++ "-" ++ toString (k + j))%string /\
      line_coordinates sl = turf.transformRotateLine T seg (dir o) (centroid T c).
Proof.
  induction l as [|x l IH]; intros k j sl H.
  - destruct j; discriminate.
  - destruct j as [|j]; simpl in H.
    + inversion H; subst. exists x. simpl. rewrite Nat.add_0_r. auto.
    + destruct (IH _ _ _ H) as (seg & ? & Hid & ?).
      exists seg. simpl. replace (k + S j)%nat with (S k + j)%nat by lia. auto.
Qed.

(** The pieces of one candidate strip, processed in order. *)
Lemma forEach_segments i (all : list LineCoords) :
  forall segs v n v' n',
    incl segs all ->
    forEach segs (on_segment T c d o i) (v, n) = Some (v', n') ->
    n' = (n + List.length (filter (accepted T c o) segs))%nat /\
    l_stripLines v' =
      l_stripLines v ++
      lines_from T c o i (List.length (l_stripLines v)) (filter (accepted T c o) segs) /\
    actualStripCount v' = actualStripCount v /\
    totalStripLengthKm v' =
      fold_left add (map (turf.length T) (filter (accepted T c o) segs))
        (totalStripLengthKm v) /\
    exists pts,
      l_photoPoints v' = l_photoPoints v ++ pts /\
      forall p, In p pts ->
        stripIndex p = actualStripCount v /\
        turf.booleanPointInPolygon T (lng p, lat p) (poly c) = true /\
        exists seg s,
          In seg all /\ accepted T c o seg = true /\
          (lng p, lat p) = ptBack T c d o seg s.
Proof.
  induction segs as [|seg segs IH]; intros v n v' n' Hincl H.
  - simpl in H. inversion H; subst. simpl.
    rewrite Nat.add_0_r, app_nil_r. repeat split; auto.
    exists []. rewrite app_nil_r. split; [reflexivity|]. intros p [].
  - simpl in H.
    destruct (on_segment T c d o i seg (v, n)) as [[v1 n1]|] eqn:E; [|discriminate].
    assert (Hin : In seg all) by (apply Hincl; now left).
    assert (Hincl' : incl segs all) by (intros x Hx; apply Hincl; now right).
    destruct (IH _ _ _ _ Hincl' H) as (Hn & Hl & Hc & Ht & pts & Hp & Hpts).
    simpl. destruct (accepted T c o seg) eqn:Ha.
    + destruct (on_segment_accepted i seg v n _ Ha E) as (pts0 & Hst & Hcase).
      inversion Hst; subst v1 n1. clear Hst.
      simpl in Hn, Hl, Hc, Ht, Hp, Hpts |- *.
      split; [lia|]. split.
      { rewrite Hl, <- app_assoc, length_app. simpl.
        do 3 f_equal. lia. }
      split; [exact Hc|]. split; [exact Ht|].
      exists (pts0 ++ pts). split; [now rewrite Hp, app_assoc|].
      intros p Hp'. apply in_app_or in Hp' as [Hp'|Hp'].
      * destruct Hcase as [[_ ->]|(_ & k & _ & ->)]; [contradiction|].
        apply kept_points_In in Hp' as (Hin' & Hmap & Hidx).
        split; [exact Hidx|]. split; [exact Hin'|].
        apply in_map_iff in Hmap as (s & Hs & _).
        exists seg, s. auto.
      * apply Hpts, Hp'.
    + rewrite (on_segment_rejected i seg (v, n) Ha) in E.
      inversion E; subst v1 n1. auto.
Qed.

Lemma productive_filter i :
  productive T c d o i = (0 <? List.length (filter (accepted T c o) (split T c d o i)))%nat.
Proof.
  unfold productive. induction (split T c d o i) as [|x l IH]; [reflexivity|].
  simpl. destruct (accepted T c o x); simpl; auto.
Qed.

(** One turn of the loop over the candidate strips. *)
Lemma on_strip_spec i v v' :
  on_strip T c d o i v = Some v' ->
  l_stripLines v' =
    l_stripLines v ++
    lines_from T c o i (List.length (l_stripLines v))
      (filter (accepted T c o) (split T c d o i)) /\
  actualStripCount v' =
    (actualStripCount v + if productive T c d o i then 1 else 0)%nat /\
  totalStripLengthKm v' =
    fold_left add
      (map (turf.length T) (filter (accepted T c o) (split T c d o i)))
      (totalStripLengthKm v) /\
  exists pts,
    l_photoPoints v' = l_photoPoints v ++ pts /\
    (pts <> [] -> productive T c d o i = true) /\
    forall p, In p pts -> stripIndex p = actualStripCount v /\ sampled_on T c d o i p.
Proof.
  unfold on_strip.
  destruct (forEach (split T c d o i) (on_segment T c d o i) (v, 0%nat))
    as [[v1 n1]|] eqn:E; [|discriminate].
  destruct (forEach_segments i (split T c d o i) _ _ _ _ _ (incl_refl _) E)
    as (Hn & Hl & Hc & Ht & pts & Hp & Hpts).
  simpl in Hn. rewrite productive_filter, <- Hn.
  intros H; inversion H; subst v'. clear H.
  assert (Hprod : pts <> [] -> (0 <? n1)%nat = true).
  { intros Hne. destruct pts as [|p pts]; [congruence|].
    destruct (Hpts p (or_introl eq_refl)) as (_ & _ & seg & s & Hin & Ha & _).
    apply Nat.ltb_lt. subst n1.
    assert (Hf : In seg (filter (accepted T c o) (split T c d o i)))
      by (apply filter_In; auto).
    destruct (filter (accepted T c o) (split T c d o i)); [contradiction|simpl; lia]. }
  destruct (0 <? n1)%nat; simpl.
  - repeat split; auto; try lia.
    exists pts. repeat split; auto; apply Hpts; auto.
  - repeat split; auto; try lia.
    exists pts. repeat split; auto; apply Hpts; auto.
Qed.

End Segments.

(** ** The loop over the candidate strips *)

Section Strips.

Variable T : turf.library.
Variable c : PolygonCoords.
Variable d : Drone.
Variable o : Options.

Lemma forEach_strips :
  forall l v v',
    forEach l (on_strip T c d o) v = Some v' ->
    actualStripCount v' =
      (actualStripCount v + List.length (filter (productive T c d o) l))%nat /\
    totalStripLengthKm v' =
      fold_left add (map (turf.length T) (accepted_segments T c d o l))
        (totalStripLengthKm v) /\
    List.length (l_stripLines v') =
      (List.length (l_stripLines v) + List.length (accepted_segments T c d o l))%nat /\
    (forall k sl,
        nth_error (l_stripLines v') k = Some sl ->
        nth_error (l_stripLines v) k = Some sl \/
        exists i, In i l /\ emitted_from T c d o i k sl) /\
    exists pts,
      l_photoPoints v' = l_photoPoints v ++ pts /\
      forall p, In p pts ->
        exists l1 i l2,
          l = l1 ++ i :: l2 /\ productive T c d o i = true /\
          stripIndex p =
            (actualStripCount v + List.length (filter (productive T c d o) l1))%nat /\
          sampled_on T c d o i p.
Proof.
  induction l as [|i l IH]; intros v v' H.
  - simpl in H. inversion H; subst. simpl.
    rewrite !Nat.add_0_r. repeat split; auto.
    exists []. rewrite app_nil_r. split; [reflexivity|]. intros p [].
  - simpl in H.
    destruct (on_strip T c d o i v) as [v1|] eqn:E; [|discriminate].
    destruct (on_strip_spec T c d o i v v1 E)
      as (Hl1 & Hc1 & Ht1 & pts1 & Hp1 & Hne1 & Hpts1).
    destruct (IH v1 v' H) as (Hc & Ht & Hlen & Hl & pts & Hp & Hpts).
    split; [|split; [|split; [|split]]].
    + rewrite Hc, Hc1. simpl. destruct (productive T c d o i); simpl; lia.
    + rewrite Ht, Ht1. unfold accepted_segments. simpl.
      now rewrite map_app, fold_left_app.
    + rewrite Hlen, Hl1, length_app, lines_from_length.
      unfold accepted_segments. simpl. rewrite length_app. lia.
    + intros k sl Hk. destruct (Hl k sl Hk) as [Hk1|(j & Hj & Hem)].
      * rewrite Hl1 in Hk1.
        destruct (Nat.lt_ge_cases k (List.length (l_stripLines v))) as [Hlt|Hge].
        { left. now rewrite nth_error_app1 in Hk1. }
        right. rewrite nth_error_app2 in Hk1 by exact Hge.
        apply lines_from_nth in Hk1 as (seg & Hseg & Hid & Hco).
        apply nth_error_In, filter_In in Hseg as [Hin Ha].
        exists i. split; [now left|]. exists seg.
        replace (List.length (l_stripLines v) + (k - List.length (l_stripLines v)))%nat
          with k in Hid by lia.
        auto.
      * right. exists j. split; [now right|exact Hem].
    + exists (pts1 ++ pts). split; [now rewrite Hp, Hp1, app_assoc|].
      intros p Hin. apply in_app_or in Hin as [Hin|Hin].
      * exists [], i, l. simpl. rewrite Nat.add_0_r.
        destruct (Hpts1 p Hin) as [Hidx Hs].
        split; [reflexivity|]. split; [|split; [exact Hidx|exact Hs]].
        apply Hne1. intros ->. contradiction.
      * destruct (Hpts p Hin) as (l1 & j & l2 & -> & Hprod & Hidx & Hs).
        exists (i :: l1), j, l2. simpl.
        split; [reflexivity|]. split; [exact Hprod|]. split; [|exact Hs].
        rewrite Hidx, Hc1. destruct (productive T c d o i); simpl; lia.
Qed.

End Strips.

(** ** The output of a call that returns *)

Lemma calculateStrips_loop T g d o r :
  calculateStrips T (Some g) d o = Returns r ->
  exists n v,
    iterations_lt (numStrips_ T (coordinates g) d o) = Some n /\
    forEach (seq 0 n) (on_strip T (coordinates g) d o) initial = Some v /\
    r = {| photoPoints := l_photoPoints v;
           stripLines := l_stripLines v;
           summaryStats := summary T (coordinates g) v |}.
Proof.
  intros H.
  apply calculateStrips_returns in H as (g' & v & Hg & _ & _ & Hl & ->).
  inversion Hg; subst g'. clear Hg.
  unfold strips_loop, for_lt in Hl.
  destruct (iterations_lt (numStrips_ T (coordinates g) d o)) as [n|]; [|discriminate].
  exists n, v. auto.
Qed.

Lemma seq_split_at :
  forall l1 a n i l2,
    seq a n = l1 ++ i :: l2 -> l1 = seq a (i - a) /\ (a <= i < a + n)%nat.
Proof.
  induction l1 as [|x l1 IH]; intros a n i l2 H.
  - destruct n as [|n]; [discriminate|]. simpl in H. inversion H; subst.
    rewrite Nat.sub_diag. split; [reflexivity|lia].
  - destruct n as [|n]; [discriminate|]. simpl in H. inversion H; subst.
    destruct (IH _ _ _ _ H2) as [-> Hi].
    replace (i - x)%nat with (S (i - S x)) by lia.
    split; [reflexivity|lia].
Qed.

(** C2, as the code has it.  The id of a strip line is
    [{i}-{k}] where [i] is the index of the candidate strip whose accepted
    piece it is and [k] is the position of the line in [stripLines], that
    is the number of lines emitted before it over the whole call; the
    second component never restarts. *)
Theorem stripLine_id_counts_all_lines T g d o r :
  calculateStrips T (Some g) d o = Returns r ->
  forall k sl,
    nth_error (stripLines r) k = Some sl ->
    exists n i,
      iterations_lt (numStrips_ T (coordinates g) d o) = Some n /\
      (i < n)%nat /\
      emitted_from T (coordinates g) d o i k sl.
Proof.
  intros H k sl Hk.
  apply calculateStrips_loop in H as (n & v & Hn & Hv & ->). simpl in Hk.
  destruct (forEach_strips T (coordinates g) d o _ _ _ Hv) as (_ & _ & _ & Hl & _).
  destruct (Hl k sl Hk) as [Hnil|(i & Hi & Hem)].
  - destruct k; discriminate.
  - exists n, i. apply in_seq in Hi. repeat split; auto; lia.
Qed.

Lemma stripLine_id_counts_all_lines_witness :
  exists r sl,
    calculateStrips FlatEarth.lib (Some FlatEarth.field) FlatEarth.square_camera
      (FlatEarth.at_height (Num (Fin 750))) = Returns r /\
    nth_error (stripLines r) 1 = Some sl /\
    id sl = "3-1"%string /\
    exists n i,
      iterations_lt (numStrips_ FlatEarth.lib (coordinates FlatEarth.field)
                       FlatEarth.square_camera
                       (FlatEarth.at_height (Num (Fin 750)))) = Some n /\
      (i < n)%nat /\
      emitted_from FlatEarth.lib (coordinates FlatEarth.field)
        FlatEarth.square_camera (FlatEarth.at_height (Num (Fin 750))) i 1 sl.
Proof.
  eexists. eexists.
  split; [vm_compute; reflexivity|].
  split; [vm_compute; reflexivity|].
  split; [reflexivity|].
  eapply (stripLine_id_counts_all_lines FlatEarth.lib FlatEarth.field
            FlatEarth.square_camera (FlatEarth.at_height (Num (Fin 750))));
    vm_compute; reflexivity.
Defined.

(** On a field crossed by three strips of one piece each the ids are
    2-0, 3-1 and 4-2: the second and third lines are the first accepted
    pieces of their strips and their second component is not 0. *)
Lemma stripLine_ids_do_not_restart :
  let o := FlatEarth.at_height (Num (Fin 750)) in
  exists r,
    calculateStrips FlatEarth.lib (Some FlatEarth.field) FlatEarth.square_camera o
      = Returns r /\
    map id (stripLines r) = ["2-0"; "3-1"; "4-2"]%string /\
    ids_restarting_per_strip FlatEarth.lib (coordinates FlatEarth.field)
      FlatEarth.square_camera o 5 = ["2-0"; "3-0"; "4-0"]%string /\
    map id (stripLines r) <>
    ids_restarting_per_strip FlatEarth.lib (coordinates FlatEarth.field)
      FlatEarth.square_camera o 5.
Proof.
  intros o. eexists.
  split; [vm_compute; reflexivity|].
  split; [vm_compute; reflexivity|].
  split; [vm_compute; reflexivity|].
  vm_compute. discriminate.
Qed.

(** C5. Every photo point of a call that returns is inside the original
    polygon: it is a point sampled along an accepted piece, rotated back
    by the flight direction about the centroid, that passed the
    containment test against the polygon as given (not the rotated one). *)
Theorem photoPoints_inside_polygon T g d o r :
  calculateStrips T (Some g) d o = Returns r ->
  forall p, In p (photoPoints r) ->
    turf.booleanPointInPolygon T (lng p, lat p) (coordinates g) = true /\
    exists i seg s,
      In seg (split T (coordinates g) d o i) /\
      accepted T (coordinates g) o seg = true /\
      (lng p, lat p) =
        turf.transformRotatePoint T
          (turf.along T seg (div (mul (of_nat s) (photoSpacing d o)) (Fin 1000)))
          (dir o) (turf.centroid T (coordinates g)).
Proof.
  intros H p Hp.
  apply calculateStrips_loop in H as (n & v & Hn & Hv & ->). simpl in Hp.
  destruct (forEach_strips T (coordinates g) d o _ _ _ Hv)
    as (_ & _ & _ & _ & pts & Hpts & Hall).
  simpl in Hpts. rewrite Hpts in Hp.
  destruct (Hall p Hp) as (_ & i & _ & _ & _ & _ & Hin & seg & s & Hs).
  split; [exact Hin|]. exists i, seg, s. exact Hs.
Qed.

Lemma photoPoints_inside_polygon_witness :
  exists r p,
    calculateStrips FlatEarth.lib (Some FlatEarth.field) FlatEarth.square_camera
      (FlatEarth.at_height (Num (Fin 750))) = Returns r /\
    nth_error (photoPoints r) 4 = Some p /\
    turf.booleanPointInPolygon FlatEarth.lib (lng p, lat p)
      (coordinates FlatEarth.field) = true.
Proof.
  eexists. eexists.
  split; [vm_compute; reflexivity|].
  split; [vm_compute; reflexivity|].
  match goal with
  | |- turf.booleanPointInPolygon _ (lng ?p, lat ?p) _ = true =>
      refine (proj1 (photoPoints_inside_polygon FlatEarth.lib FlatEarth.field
                       FlatEarth.square_camera
                       (FlatEarth.at_height (Num (Fin 750))) _ _ p _))
  end.
  - vm_compute; reflexivity.
  - vm_compute. do 4 right. left. reflexivity.
Defined.

(** C6. In the summary of a call that returns, [numPhotos] is the length
    of [photoPoints] and [numStrips] is the number of candidate strips with
    at least one accepted piece; the strip index of a photo point is the
    number of such strips before its own, so a candidate strip without an
    accepted piece uses no index. *)
Theorem summary_counts T g d o r :
  calculateStrips T (Some g) d o = Returns r ->
  numPhotos (summaryStats r) = List.length (photoPoints r) /\
  exists n,
    iterations_lt (numStrips_ T (coordinates g) d o) = Some n /\
    numStrips (summaryStats r) =
      List.length (filter (productive T (coordinates g) d o) (seq 0 n)) /\
    forall p, In p (photoPoints r) ->
      exists i,
        (i < n)%nat /\ productive T (coordinates g) d o i = true /\
        stripIndex p =
          List.length (filter (productive T (coordinates g) d o) (seq 0 i)) /\
        sampled_on T (coordinates g) d o i p.
Proof.
  intros H.
  apply calculateStrips_loop in H as (n & v & Hn & Hv & ->). simpl.
  split; [reflexivity|]. exists n. split; [exact Hn|].
  destruct (forEach_strips T (coordinates g) d o _ _ _ Hv)
    as (Hc & _ & _ & _ & pts & Hpts & Hall).
  simpl in Hc, Hpts. split; [exact Hc|].
  intros p Hp. rewrite Hpts in Hp.
  destruct (Hall p Hp) as (l1 & i & l2 & Hsplit & Hprod & Hidx & Hs).
  apply seq_split_at in Hsplit as [-> Hi]. rewrite Nat.sub_0_r in Hidx.
  exists i. repeat split; auto; try lia; apply Hs.
Qed.

Lemma summary_counts_witness :
  exists r,
    calculateStrips FlatEarth.lib (Some FlatEarth.field) FlatEarth.square_camera
      (FlatEarth.at_height (Num (Fin 750))) = Returns r /\
    numPhotos (summaryStats r) = List.length (photoPoints r) /\
    numStrips (summaryStats r) = 3%nat /\
    List.length
      (filter (productive FlatEarth.lib (coordinates FlatEarth.field)
                 FlatEarth.square_camera (FlatEarth.at_height (Num (Fin 750))))
         (seq 0 5)) = 3%nat.
Proof.
  eexists.
  split; [vm_compute; reflexivity|].
  split.
  - refine (proj1 (summary_counts FlatEarth.lib FlatEarth.field
                     FlatEarth.square_camera
                     (FlatEarth.at_height (Num (Fin 750))) _ _)).
    vm_compute; reflexivity.
  - split; vm_compute; reflexivity.
Defined.

(** ** Sampling one segment *)







(** ** The number of candidate strips *)

Lemma fin_eq (q r : Q) : q == r -> fin q = fin r.
Proof. intros H. unfold fin. f_equal. now apply Qred_complete. Qed.







(** ** Overlaps and counts *)






(** ** More on the output of [calculateStrips] *)

Section MoreOnTheOutput.

Variable T : turf.library.
Variable c : PolygonCoords.
Variable d : Drone.
Variable o : Options.

Lemma kept_points_indices strip :
  forall cs j,
    map pointIndex (kept_points T c strip j cs) =
    seq j (List.length (kept_points T c strip j cs)).
Proof.
  induction cs as [|q cs IH]; simpl; intros j; [reflexivity|].
  destruct (turf.booleanPointInPolygon T q (poly c)); simpl.
  - now rewrite IH.
  - apply IH.
Qed.

Lemma kept_points_strip strip :
  forall cs j, Forall (fun p => stripIndex p = strip) (kept_points T c strip j cs).
Proof.
  induction cs as [|q cs IH]; simpl; intros j; [constructor|].
  destruct (turf.booleanPointInPolygon T q (poly c)).
  - constructor; [reflexivity|apply IH].
  - apply IH.
Qed.

(** One batch of photo points per accepted piece. *)
Lemma forEach_segments_batches i :
  forall segs v n v' n',
    forEach segs (on_segment T c d o i) (v, n) = Some (v', n') ->
    exists batches,
      l_photoPoints v' = l_photoPoints v ++ List.concat batches /\
      List.length batches = List.length (filter (accepted T c o) segs) /\
      Forall (fun b => map pointIndex b = seq 0 (List.length b) /\
                       Forall (fun p => stripIndex p = actualStripCount v) b)
        batches.
Proof.
  induction segs as [|seg segs IH]; intros v n v' n' H.
  - simpl in H. inversion H; subst. exists []. simpl.
    rewrite app_nil_r. auto.
  - simpl in H.
    destruct (on_segment T c d o i seg (v, n)) as [[v1 n1]|] eqn:E; [|discriminate].
    destruct (IH _ _ _ _ H) as (bs & Hp & Hlen & Hall).
    simpl. destruct (accepted T c o seg) eqn:Ha.
    + destruct (on_segment_accepted T c d o i seg v n _ Ha E) as (pts0 & Hst & Hcase).
      inversion Hst; subst v1 n1. clear Hst. simpl in Hp, Hall.
      exists (pts0 :: bs). simpl.
      split; [now rewrite Hp, app_assoc|]. split; [now rewrite Hlen|].
      constructor; [|exact Hall].
      destruct Hcase as [[_ ->]|(_ & k & _ & ->)].
      * split; [reflexivity|constructor].
      * split; [apply kept_points_indices|apply kept_points_strip].
    + rewrite (on_segment_rejected T c d o i seg (v, n) Ha) in E.
      inversion E; subst v1 n1. exists bs. auto.
Qed.

Lemma StronglySorted_le_app (l1 l2 : list nat) (m : nat) :
  StronglySorted le l1 -> StronglySorted le l2 ->
  Forall (fun x => x <= m)%nat l1 -> Forall (fun x => m <= x)%nat l2 ->
  StronglySorted le (l1 ++ l2).
Proof.
  induction 1 as [|a l1 Hs IH Ha]; intros H2 Hle Hge; simpl; [exact H2|].
  inversion Hle; subst.
  constructor; [now apply IH|].
  apply Forall_app. split; [exact Ha|].
  eapply Forall_impl; [|exact Hge]. simpl. intros; lia.
Qed.

Lemma same_strip_sorted (ps : list PhotoPoint) (m : nat) :
  Forall (fun p => stripIndex p = m) ps ->
  StronglySorted le (map stripIndex ps).
Proof.
  induction 1 as [|p ps Hp Hps IH]; simpl; constructor; [exact IH|].
  rewrite Forall_map. eapply Forall_impl; [|exact Hps]. simpl.
  intros q ->. lia.
Qed.

(** The loop over the candidate strips [l], in closed form. *)
Lemma forEach_strips_closed :
  forall l v v',
    forEach l (on_strip T c d o) v = Some v' ->
    l_stripLines v' =
      l_stripLines v ++ all_lines T c d o l (List.length (l_stripLines v)) /\
    (actualStripCount v <= actualStripCount v')%nat /\
    exists batches,
      l_photoPoints v' = l_photoPoints v ++ List.concat batches /\
      List.length batches = List.length (accepted_segments T c d o l) /\
      Forall one_batch batches /\
      Forall (fun p => actualStripCount v <= stripIndex p)%nat (List.concat batches) /\
      StronglySorted le (map stripIndex (List.concat batches)).
Proof.
  induction l as [|i l IH]; intros v v' H.
  - simpl in H. inversion H; subst. simpl. rewrite app_nil_r.
    split; [reflexivity|]. split; [lia|].
    exists []. simpl. rewrite app_nil_r.
    repeat split; auto; constructor.
  - simpl in H.
    destruct (on_strip T c d o i v) as [v1|] eqn:E; [|discriminate].
    destruct (on_strip_spec T c d o i v v1 E) as (Hl1 & Hc1 & _ & _).
    assert (Hb1 : exists bs,
               l_photoPoints v1 = l_photoPoints v ++ List.concat bs /\
               List.length bs =
                 List.length (filter (accepted T c o) (split T c d o i)) /\
               Forall (fun b => map pointIndex b = seq 0 (List.length b) /\
                          Forall (fun p => stripIndex p = actualStripCount v) b) bs).
    { unfold on_strip in E.
      destruct (forEach (split T c d o i) (on_segment T c d o i) (v, 0%nat))
        as [[v2 n2]|] eqn:E2; [|discriminate].
      destruct (forEach_segments_batches i _ _ _ _ _ E2) as (bs & Hp & Hlen & Hall).
      exists bs. inversion E; subst v1.
      destruct (0 <? n2)%nat; simpl; auto. }
    destruct Hb1 as (bs1 & Hp1 & Hlen1 & Hall1).
    destruct (IH v1 v' H) as (Hl & Hc & bs & Hp & Hlen & Hall & Hge & Hsorted).
    assert (Hsame : Forall (fun p => stripIndex p = actualStripCount v) (List.concat bs1)).
    { clear - Hall1. induction Hall1 as [|b bs1 [_ Hb] _ IHb]; simpl; [constructor|].
      apply Forall_app. auto. }
    split; [|split].
    + rewrite Hl, Hl1, <- app_assoc, length_app, lines_from_length. reflexivity.
    + lia.
    + exists (bs1 ++ bs). rewrite concat_app.
      split; [now rewrite Hp, Hp1, app_assoc|].
      split.
      { unfold accepted_segments. simpl. rewrite !length_app, Hlen1.
        f_equal. exact Hlen. }
      split.
      { apply Forall_app. split; [|exact Hall].
        eapply Forall_impl; [|exact Hall1]. intros b [Hidx Hs].
        split; [exact Hidx|]. now exists (actualStripCount v). }
      split.
      { apply Forall_app. split.
        - eapply Forall_impl; [|exact Hsame]. simpl. intros p ->. lia.
        - eapply Forall_impl; [|exact Hge]. simpl. intros p Hp'. lia. }
      rewrite map_app.
      apply (StronglySorted_le_app _ _ (actualStripCount v)).
      * now apply (same_strip_sorted _ (actualStripCount v)).
      * exact Hsorted.
      * rewrite Forall_map. eapply Forall_impl; [|exact Hsame]. simpl. intros p ->. lia.
      * rewrite Forall_map. eapply Forall_impl; [|exact Hge]. simpl. intros p Hp'. lia.
Qed.

End MoreOnTheOutput.

Lemma productive_count_le T c d o :
  forall l,
    (List.length (filter (productive T c d o) l)
     <= List.length (accepted_segments T c d o l))%nat /\
    (List.length (filter (productive T c d o) l) <= List.length l)%nat.
Proof.
  induction l as [|i l [IH1 IH2]]; simpl; [split; lia|].
  unfold accepted_segments in *. simpl. rewrite length_app.
  destruct (productive T c d o i) eqn:E; simpl; [|split; lia].
  rewrite productive_filter in E. apply Nat.ltb_lt in E. split; lia.
Qed.

Lemma all_lines_coordinates T c d o :
  forall l k,
    map line_coordinates (all_lines T c d o l k) =
    map (fun seg => turf.transformRotateLine T seg (dir o) (centroid T c))
      (accepted_segments T c d o l).
Proof.
  induction l as [|i l IH]; intros k; [reflexivity|].
  unfold accepted_segments in *. simpl. rewrite !map_app, IH. f_equal.
  generalize (filter (accepted T c o) (split T c d o i)) k.
  induction l0 as [|seg segs IHs]; intros k0; simpl; [reflexivity|].
  now rewrite IHs.
Qed.

(** X1. Every photo point of a call that returns has a strip index below
    [numStrips]. *)
Theorem stripIndex_below_numStrips T g d o r :
  calculateStrips T (Some g) d o = Returns r ->
  forall p, In p (photoPoints r) ->
    (stripIndex p < numStrips (summaryStats r))%nat.
Proof.
  intros H p Hp.
  apply calculateStrips_loop in H as (n & v & Hn & Hv & ->). simpl in *.
  destruct (forEach_strips T (coordinates g) d o _ _ _ Hv)
    as (Hc & _ & _ & _ & pts & Hpts & Hall).
  simpl in Hc, Hpts. rewrite Hpts in Hp.
  destruct (Hall p Hp) as (l1 & i & l2 & Hsplit & Hprod & Hidx & _).
  rewrite Hc, Hidx, Hsplit, filter_app, length_app. simpl. rewrite Hprod.
  simpl. lia.
Qed.

Lemma stripIndex_below_numStrips_witness :
  returned
    (fun r => forallb (fun p => (stripIndex p <? numStrips (summaryStats r))%nat)
                (photoPoints r))
    (calculateStrips FlatEarth.lib (Some FlatEarth.field) FlatEarth.square_camera
       (FlatEarth.at_height (Num (Fin 750)))) = Some true
  /\ exists r p,
      calculateStrips FlatEarth.lib (Some FlatEarth.field) FlatEarth.square_camera
        (FlatEarth.at_height (Num (Fin 750))) = Returns r /\
      nth_error (photoPoints r) 8 = Some p /\
      (stripIndex p < numStrips (summaryStats r))%nat.
Proof.
  split; [vm_compute; reflexivity|].
  eexists. eexists.
  split; [vm_compute; reflexivity|].
  split; [vm_compute; reflexivity|].
  match goal with
  | |- (stripIndex ?p < _)%nat =>
      refine (stripIndex_below_numStrips FlatEarth.lib FlatEarth.field
                FlatEarth.square_camera (FlatEarth.at_height (Num (Fin 750)))
                _ _ p _)
  end.
  - vm_compute; reflexivity.
  - vm_compute. do 8 right. left. reflexivity.
Defined.



(** X3. Along [photoPoints] the strip index never decreases. *)
Theorem photoPoints_sorted_by_strip T g d o r :
  calculateStrips T (Some g) d o = Returns r ->
  StronglySorted le (map stripIndex (photoPoints r)).
Proof.
  intros H.
  apply calculateStrips_loop in H as (n & v & Hn & Hv & ->). simpl.
  destruct (forEach_strips_closed T (coordinates g) d o _ _ _ Hv)
    as (_ & _ & bs & Hp & _ & _ & _ & Hs).
  simpl in Hp. now rewrite Hp.
Qed.

Lemma photoPoints_sorted_by_strip_witness :
  exists r,
    calculateStrips FlatEarth.lib (Some FlatEarth.field) FlatEarth.square_camera
      (FlatEarth.at_height (Num (Fin 750))) = Returns r /\
    map stripIndex (photoPoints r) = [0; 0; 0; 1; 1; 1; 2; 2; 2]%nat /\
    StronglySorted le (map stripIndex (photoPoints r)).
Proof.
  eexists.
  split; [vm_compute; reflexivity|].
  split; [vm_compute; reflexivity|].
  refine (photoPoints_sorted_by_strip FlatEarth.lib FlatEarth.field
            FlatEarth.square_camera (FlatEarth.at_height (Num (Fin 750))) _ _).
  vm_compute; reflexivity.
Defined.

(** X4. The strip lines of a call that returns are exactly the accepted
    pieces of the candidate strips, in scan order, each rotated back by the
    flight direction about the centroid; there are at least [numStrips] of
    them, and [numStrips] is at most the number of candidate strips. *)
Theorem stripLines_are_the_accepted_pieces T g d o r :
  calculateStrips T (Some g) d o = Returns r ->
  exists n,
    iterations_lt (numStrips_ T (coordinates g) d o) = Some n /\
    map line_coordinates (stripLines r) =
      map (fun seg =>
             turf.transformRotateLine T seg (dir o) (turf.centroid T (coordinates g)))
        (accepted_segments T (coordinates g) d o (seq 0 n)) /\
    (numStrips (summaryStats r) <= List.length (stripLines r))%nat /\
    (numStrips (summaryStats r) <= n)%nat.
Proof.
  intros H.
  apply calculateStrips_loop in H as (n & v & Hn & Hv & ->). simpl.
  exists n. split; [exact Hn|].
  destruct (forEach_strips_closed T (coordinates g) d o _ _ _ Hv) as (Hl & _).
  destruct (forEach_strips T (coordinates g) d o _ _ _ Hv) as (Hc & _ & Hlen & _).
  simpl in Hl, Hc, Hlen.
  destruct (productive_count_le T (coordinates g) d o (seq 0 n)) as [H1 H2].
  rewrite length_seq in H2.
  split; [|split; lia].
  rewrite Hl. apply all_lines_coordinates.
Qed.

Lemma stripLines_are_the_accepted_pieces_witness :
  exists r n,
    calculateStrips FlatEarth.lib (Some FlatEarth.field) FlatEarth.square_camera
      (FlatEarth.at_height (Num (Fin 750))) = Returns r /\
    iterations_lt (numStrips_ FlatEarth.lib (coordinates FlatEarth.field)
                     FlatEarth.square_camera
                     (FlatEarth.at_height (Num (Fin 750)))) = Some n /\
    (numStrips (summaryStats r) <= List.length (stripLines r))%nat /\
    (numStrips (summaryStats r) <= n)%nat.
Proof.
  assert (H : exists r,
             calculateStrips FlatEarth.lib (Some FlatEarth.field)
               FlatEarth.square_camera (FlatEarth.at_height (Num (Fin 750)))
             = Returns r)
    by (eexists; vm_compute; reflexivity).
  destruct H as (r & Hr).
  destruct (stripLines_are_the_accepted_pieces FlatEarth.lib FlatEarth.field
              FlatEarth.square_camera (FlatEarth.at_height (Num (Fin 750))) r Hr)
    as (n & Hn & _ & H1 & H2).
  exists r, n. auto.
Defined.

(** X5. [totalLengthKm] is the sum, rounded to two decimals, of the
    lengths of all accepted pieces, those shorter than [minSegmentLength]
    included. *)
Theorem totalLengthKm_sums_all_pieces T g d o r :
  calculateStrips T (Some g) d o = Returns r ->
  exists n,
    iterations_lt (numStrips_ T (coordinates g) d o) = Some n /\
    totalLengthKm (summaryStats r) =
      toFixed2
        (fold_left add
           (map (turf.length T) (accepted_segments T (coordinates g) d o (seq 0 n)))
           (Fin 0)).
Proof.
  intros H.
  apply calculateStrips_loop in H as (n & v & Hn & Hv & ->). simpl.
  exists n. split; [exact Hn|].
  destruct (forEach_strips T (coordinates g) d o _ _ _ Hv) as (_ & Ht & _).
  simpl in Ht. now rewrite Ht.
Qed.

Lemma totalLengthKm_sums_all_pieces_witness :
  let o := with_minSegmentLength (FlatEarth.at_height (Num (Fin 750))) (Some (Fin 1000)) in
  exists r n,
    calculateStrips FlatEarth.lib (Some FlatEarth.field) FlatEarth.square_camera o
      = Returns r /\
    photoPoints r = [] /\
    iterations_lt (numStrips_ FlatEarth.lib (coordinates FlatEarth.field)
                     FlatEarth.square_camera o) = Some n /\
    totalLengthKm (summaryStats r) =
      toFixed2
        (fold_left add
           (map (turf.length FlatEarth.lib)
              (accepted_segments FlatEarth.lib (coordinates FlatEarth.field)
                 FlatEarth.square_camera o (seq 0 n)))
           (Fin 0)) /\
    totalLengthKm (summaryStats r) = Fin (9 # 5).
Proof.
  intros o.
  assert (H : exists r,
             calculateStrips FlatEarth.lib (Some FlatEarth.field)
               FlatEarth.square_camera o = Returns r /\
             photoPoints r = [] /\
             totalLengthKm (summaryStats r) = Fin (9 # 5)).
  { eexists. split; [vm_compute; reflexivity|]. split; vm_compute; reflexivity. }
  destruct H as (r & Hr & Hp & Ht).
  destruct (totalLengthKm_sums_all_pieces FlatEarth.lib FlatEarth.field
              FlatEarth.square_camera o r Hr) as (n & Hn & Hsum).
  exists r, n. auto.
Defined.

(** ** What the strips depend on *)

Section StripsDependOn.

Variable T : turf.library.
Variable c : PolygonCoords.
Variable d : Drone.
Variables o1 o2 : Options.
Hypothesis same_height : height_ o1 = height_ o2.
Hypothesis same_sidelap : sidelap_ o1 = sidelap_ o2.
Hypothesis same_dir : dir o1 = dir o2.

Lemma split_ext (i : nat) : split T c d o1 i = split T c d o2 i.
Proof.
  unfold split, scanLine, offsetPoint, startPoint, leftPoint, bboxCenter, bbox,
    rotatedPoly, stripSpacing, footprintX.
  now rewrite same_height, same_sidelap, same_dir.
Qed.

Lemma accepted_ext (seg : LineCoords) : accepted T c o1 seg = accepted T c o2 seg.
Proof. unfold accepted, rotatedPoly. now rewrite same_dir. Qed.

Lemma numStrips_ext : numStrips_ T c d o1 = numStrips_ T c d o2.
Proof.
  unfold numStrips_, numStrips_estimate, totalWidth_m, totalWidth_km, leftPoint,
    rightPoint, bboxCenter, bbox, rotatedPoly, stripSpacing, footprintX.
  now rewrite same_height, same_sidelap, same_dir.
Qed.

Lemma accepted_pieces_ext (i : nat) :
  filter (accepted T c o1) (split T c d o1 i) =
  filter (accepted T c o2) (split T c d o2 i).
Proof.
  rewrite split_ext. apply filter_ext. intros seg. apply accepted_ext.
Qed.

Lemma accepted_segments_ext (l : list nat) :
  accepted_segments T c d o1 l = accepted_segments T c d o2 l.
Proof.
  unfold accepted_segments. induction l as [|i l IH]; simpl; [reflexivity|].
  now rewrite IH, accepted_pieces_ext.
Qed.

Lemma productive_ext (i : nat) : productive T c d o1 i = productive T c d o2 i.
Proof. now rewrite !productive_filter, accepted_pieces_ext. Qed.

Lemma lines_from_ext (i : nat) :
  forall segs k, lines_from T c o1 i k segs = lines_from T c o2 i k segs.
Proof.
  induction segs as [|seg segs IH]; intros k; simpl; [reflexivity|].
  now rewrite IH, same_dir.
Qed.

Lemma all_lines_ext :
  forall l k, all_lines T c d o1 l k = all_lines T c d o2 l k.
Proof.
  induction l as [|i l IH]; intros k; simpl; [reflexivity|].
  now rewrite IH, accepted_pieces_ext, lines_from_ext.
Qed.

End StripsDependOn.

(** X6. The strips depend on the options only through the height, the
    sidelap and the direction: two calls that return and differ in
    [frontlap] and [minSegmentLength] only give the same [stripLines],
    [numStrips], [totalLengthKm], [estTimeMin] and [areaHa]. *)
Theorem frontlap_moves_photo_points_only T g d o1 o2 r1 r2 :
  height_ o1 = height_ o2 -> sidelap_ o1 = sidelap_ o2 -> dir o1 = dir o2 ->
  calculateStrips T (Some g) d o1 = Returns r1 ->
  calculateStrips T (Some g) d o2 = Returns r2 ->
  stripLines r1 = stripLines r2 /\
  numStrips (summaryStats r1) = numStrips (summaryStats r2) /\
  totalLengthKm (summaryStats r1) = totalLengthKm (summaryStats r2) /\
  estTimeMin (summaryStats r1) = estTimeMin (summaryStats r2) /\
  areaHa (summaryStats r1) = areaHa (summaryStats r2).
Proof.
  intros Hh Hs Hd H1 H2.
  apply calculateStrips_loop in H1 as (n1 & v1 & Hn1 & Hv1 & ->).
  apply calculateStrips_loop in H2 as (n2 & v2 & Hn2 & Hv2 & ->).
  rewrite (numStrips_ext T (coordinates g) d o1 o2 Hh Hs Hd), Hn2 in Hn1.
  inversion Hn1; subst n2. clear Hn1.
  destruct (forEach_strips_closed T (coordinates g) d o1 _ _ _ Hv1) as (Hl1 & _).
  destruct (forEach_strips_closed T (coordinates g) d o2 _ _ _ Hv2) as (Hl2 & _).
  destruct (forEach_strips T (coordinates g) d o1 _ _ _ Hv1) as (Hc1 & Ht1 & _).
  destruct (forEach_strips T (coordinates g) d o2 _ _ _ Hv2) as (Hc2 & Ht2 & _).
  simpl in *.
  assert (El : l_stripLines v1 = l_stripLines v2)
    by (rewrite Hl1, Hl2; apply all_lines_ext; assumption).
  assert (Ec : actualStripCount v1 = actualStripCount v2).
  { rewrite Hc1, Hc2. f_equal. apply filter_ext. intros i.
    apply productive_ext; assumption. }
  assert (Et : totalStripLengthKm v1 = totalStripLengthKm v2).
  { rewrite Ht1, Ht2. do 2 f_equal. apply accepted_segments_ext; assumption. }
  unfold summary. simpl. rewrite El, Ec, Et. auto.
Qed.

Lemma frontlap_moves_photo_points_only_witness :
  let o1 := FlatEarth.at_height (Num (Fin 750)) in
  let o2 := with_frontlap (with_minSegmentLength o1 (Some (Fin 1000))) (Str "0.2") in
  returned (fun r => map id (stripLines r))
    (calculateStrips FlatEarth.lib (Some FlatEarth.field) FlatEarth.square_camera o1)
  = returned (fun r => map id (stripLines r))
    (calculateStrips FlatEarth.lib (Some FlatEarth.field) FlatEarth.square_camera o2)
  /\ returned (fun r => List.length (photoPoints r))
       (calculateStrips FlatEarth.lib (Some FlatEarth.field) FlatEarth.square_camera o1)
     = Some 9%nat
  /\ returned (fun r => List.length (photoPoints r))
       (calculateStrips FlatEarth.lib (Some FlatEarth.field) FlatEarth.square_camera o2)
     = Some 0%nat.
Proof.
  intros o1 o2.
  assert (H1 : exists r,
             calculateStrips FlatEarth.lib (Some FlatEarth.field)
               FlatEarth.square_camera o1 = Returns r)
    by (eexists; vm_compute; reflexivity).
  assert (H2 : exists r,
             calculateStrips FlatEarth.lib (Some FlatEarth.field)
               FlatEarth.square_camera o2 = Returns r)
    by (eexists; vm_compute; reflexivity).
  destruct H1 as (r1 & H1). destruct H2 as (r2 & H2).
  destruct (frontlap_moves_photo_points_only FlatEarth.lib FlatEarth.field
              FlatEarth.square_camera o1 o2 r1 r2 eq_refl eq_refl eq_refl H1 H2)
    as (Hl & _).
  split.
  - rewrite H1, H2. simpl. now rewrite Hl.
  - split; vm_compute; reflexivity.
Defined.

(** ** When the call returns *)







(** ** The direction modulo 360 *)








(** ** The elevation module *)

Section Batches.

Context {A : Type}.

Lemma fold_left_push {K B : Type} (f : K -> list B) :
  forall (l : list K) (init : list B),
    fold_left (fun acc k => acc ++ f k) l init = init ++ List.concat (map f l).
Proof.
  induction l as [|k l IH]; intros init; simpl.
  - now rewrite app_nil_r.
  - now rewrite IH, app_assoc.
Qed.

(** Cutting a list in [m] slices of [b] elements loses nothing when
    [m * b] reaches its length. *)
Lemma slices_cover (b : nat) :
  forall m (l : list A),
    (List.length l <= m * b)%nat ->
    List.concat (map (fun k => firstn b (skipn (k * b) l)) (seq 0 m)) = l.
Proof.
  induction m as [|m IH]; intros l Hl.
  - simpl in *. destruct l; [reflexivity|simpl in Hl; lia].
  - change (seq 0 (S m)) with (0%nat :: seq 1 m).
    rewrite <- seq_shift, map_cons, map_map. simpl List.concat.
    change (skipn (0 * b) l) with l.
    transitivity (firstn b l ++ skipn b l); [|apply firstn_skipn].
    f_equal.
    rewrite <- (IH (skipn b l)) at 1.
    + f_equal. apply map_ext. intros k.
      rewrite skipn_skipn. do 2 f_equal. simpl. lia.
    + rewrite length_skipn. simpl in Hl. lia.
Qed.

Lemma turns_reach (n : nat) : (n <= Elevation.turns n * Elevation.batchSize)%nat.
Proof.
  unfold Elevation.turns.
  assert (Hb : Elevation.batchSize <> 0%nat) by discriminate.
  generalize dependent Elevation.batchSize. intros b Hb.
  pose proof (Nat.div_mod_eq (n + (b - 1)) b) as E.
  pose proof (Nat.mod_upper_bound (n + (b - 1)) b Hb) as Hr.
  rewrite (Nat.mul_comm _ b). lia.
Qed.


Lemma batch_is_slice (l : list Elevation.Point) (k : nat) :
  Elevation.batch l k =
  firstn Elevation.batchSize (skipn (k * Elevation.batchSize) l).
Proof.
  unfold Elevation.batch, Elevation.slice.
  now rewrite Nat.add_comm, Nat.add_sub.
Qed.

End Batches.

Section FetchFacts.

Variable fetch : nat -> list Elevation.Location -> Elevation.response.

Lemma batch_loop_concat (vp : list Elevation.Point) :
  Elevation.batch_loop fetch vp =
  List.concat
    (map (fun k =>
            Elevation.pushed
              (fetch k (Elevation.locations (Elevation.batch vp k)))
              (List.length (Elevation.batch vp k)))
       (seq 0 (Elevation.turns (List.length vp)))).
Proof. unfold Elevation.batch_loop. now rewrite fold_left_push. Qed.

Lemma batches_cover (vp : list Elevation.Point) :
  List.concat (map (Elevation.batch vp) (seq 0 (Elevation.turns (List.length vp)))) = vp.
Proof.
  rewrite (map_ext _ _ (batch_is_slice vp)).
  apply slices_cover, turns_reach.
Qed.


Lemma aligned_length (es : list number) :
  forall pts idx, List.length (Elevation.aligned pts es idx) = List.length pts.
Proof.
  induction pts as [|p pts IH]; intros idx; simpl; [reflexivity|].
  destruct (Elevation.valid p); simpl; now rewrite IH.
Qed.

Lemma aligned_invalid (es : list number) :
  forall pts idx i p,
    nth_error pts i = Some p -> Elevation.valid p = false ->
    nth_error (Elevation.aligned pts es idx) i = Some (Some (Fin 0)).
Proof.
  induction pts as [|q pts IH]; intros idx i p Hi Hp.
  - destruct i; discriminate.
  - destruct i as [|i]; simpl in *.
    + inversion Hi; subst. now rewrite Hp.
    + destruct (Elevation.valid q); simpl; eapply IH; eauto.
Qed.

Lemma aligned_map (g : Elevation.Point -> number) :
  forall pts pre,
    Elevation.aligned pts (pre ++ map g (filter Elevation.valid pts)) (List.length pre) =
    map (fun p => Some (if Elevation.valid p then g p else Fin 0)) pts.
Proof.
  induction pts as [|p pts IH]; intros pre; simpl; [reflexivity|].
  destruct (Elevation.valid p) eqn:E; simpl.
  - rewrite nth_error_app2, Nat.sub_diag by lia. simpl. f_equal.
    specialize (IH (pre ++ [g p])).
    rewrite <- app_assoc, length_app in IH. simpl in IH.
    rewrite Nat.add_1_r in IH. exact IH.
  - f_equal. apply IH.
Qed.

Lemma filter_all {B : Type} (f : B -> bool) :
  forall l, List.length (filter f l) = List.length l -> filter f l = l.
Proof.
  induction l as [|x l IH]; simpl; [reflexivity|].
  destruct (f x); simpl; intros H.
  - f_equal. apply IH. lia.
  - pose proof (filter_length_le f l). lia.
Qed.

(** When the elevations pushed for every batch are those of a function
    [g] of its points, the result gives [g p] at every valid point [p] and
    0 at every other. *)
Lemma fetchElevationsBatch_pointwise (g : Elevation.Point -> number)
    (pts : list Elevation.Point) :
  (forall k,
      (k < Elevation.turns (List.length (filter Elevation.valid pts)))%nat ->
      Elevation.pushed
        (fetch k (Elevation.locations (Elevation.batch (filter Elevation.valid pts) k)))
        (List.length (Elevation.batch (filter Elevation.valid pts) k))
      = map g (Elevation.batch (filter Elevation.valid pts) k)) ->
  Elevation.fetchElevationsBatch fetch (Some pts) =
  map (fun p => Some (if Elevation.valid p then g p else Fin 0)) pts.
Proof.
  intros Hg.
  assert (Hloop : Elevation.batch_loop fetch (filter Elevation.valid pts)
                  = map g (filter Elevation.valid pts)).
  { rewrite batch_loop_concat.
    transitivity
      (map g (List.concat
                (map (Elevation.batch (filter Elevation.valid pts))
                   (seq 0 (Elevation.turns
                             (List.length (filter Elevation.valid pts)))))));
      [|now rewrite batches_cover].
    rewrite concat_map, map_map. f_equal. apply map_ext_in.
    intros k Hk. apply in_seq in Hk. apply Hg. lia. }
  unfold Elevation.fetchElevationsBatch.
  destruct pts as [|p0 pts0]; [reflexivity|].
  set (pts := p0 :: pts0) in *.
  rewrite Hloop.
  destruct (List.length (filter Elevation.valid pts) =? List.length pts)%nat eqn:E.
  - apply Nat.eqb_eq in E. rewrite (filter_all _ _ E), map_map.
    apply map_ext_in. intros p Hp.
    assert (Hv : In p (filter Elevation.valid pts)) by now rewrite (filter_all _ _ E).
    apply filter_In in Hv as [_ ->]. reflexivity.
  - apply (aligned_map g pts []).
Qed.

End FetchFacts.

Lemma zeros_map {B : Type} (l : list B) :
  Elevation.zeros (List.length l) = map (fun _ => Fin 0) l.
Proof.
  unfold Elevation.zeros. induction l as [|x l IH]; simpl; [reflexivity|].
  now rewrite IH.
Qed.

Lemma results_map_answers (elev : Elevation.Location -> value) :
  forall locs,
    Elevation.results_map (map (fun loc => Some (elev loc)) locs) =
    Some (map (fun loc => Elevation.elevation_or_0 (elev loc)) locs).
Proof.
  induction locs as [|loc locs IH]; simpl; [reflexivity|].
  now rewrite IH.
Qed.

(** X11. When every request is rejected (network error, timeout, bad
    status, bad body) or answered without a [results] array, the result is
    one 0 per input point. *)
Theorem failed_requests_give_zeros
    (fetch : nat -> list Elevation.Location -> Elevation.response)
    (pts : list Elevation.Point) :
  (forall k locs,
      fetch k locs = Elevation.Rejected \/ fetch k locs = Elevation.Answered None) ->
  Elevation.fetchElevationsBatch fetch (Some pts) =
  repeat (Some (Fin 0)) (List.length pts).
Proof.
  intros Hf.
  rewrite (fetchElevationsBatch_pointwise fetch (fun _ => Fin 0)).
  - induction pts as [|p pts IH]; simpl; [reflexivity|].
    rewrite IH. now destruct (Elevation.valid p).
  - intros k _. rewrite <- zeros_map.
    destruct (Hf k (Elevation.locations
                      (Elevation.batch (filter Elevation.valid pts) k)))
      as [-> | ->]; reflexivity.
Qed.

(** X12. When every request is answered with one result per location and
    the elevation of a result depends on its location only, the result has
    one entry per input point, in the order of the input: at a valid point
    the elevation answered for its own location, or 0 when that is not a
    number or is [NaN]; at an invalid point 0. *)
Theorem elevations_are_aligned
    (fetch : nat -> list Elevation.Location -> Elevation.response)
    (elev : Elevation.Location -> value) (pts : list Elevation.Point) :
  (forall k locs,
      fetch k locs = Elevation.Answered (Some (map (fun loc => Some (elev loc)) locs))) ->
  Elevation.fetchElevationsBatch fetch (Some pts) =
  map (fun p =>
         Some (if Elevation.valid p
               then Elevation.elevation_or_0 (elev (Elevation.lat p, Elevation.lng p))
               else Fin 0))
    pts.
Proof.
  intros Hf.
  apply (fetchElevationsBatch_pointwise fetch
           (fun p => Elevation.elevation_or_0 (elev (Elevation.lat p, Elevation.lng p)))).
  intros k _. rewrite Hf. unfold Elevation.pushed.
  rewrite results_map_answers. unfold Elevation.locations. now rewrite map_map.
Qed.

(** X13. When at least one input point is invalid, the result has one
    entry per input point whatever the requests come to, and 0 at every
    invalid point. *)
Theorem invalid_points_get_zero
    (fetch : nat -> list Elevation.Location -> Elevation.response)
    (pts : list Elevation.Point) :
  forallb Elevation.valid pts = false ->
  List.length (Elevation.fetchElevationsBatch fetch (Some pts)) = List.length pts /\
  forall i p,
    nth_error pts i = Some p -> Elevation.valid p = false ->
    nth_error (Elevation.fetchElevationsBatch fetch (Some pts)) i = Some (Some (Fin 0)).
Proof.
  intros Hinv.
  assert (Hlen : (List.length (filter Elevation.valid pts) =? List.length pts)%nat = false).
  { apply Nat.eqb_neq. intros E. apply filter_all in E.
    assert (Hall : forallb Elevation.valid pts = true).
    { apply forallb_forall. intros x Hx. rewrite <- E in Hx.
      now apply filter_In in Hx. }
    congruence. }
  unfold Elevation.fetchElevationsBatch.
  destruct pts as [|p0 pts0]; [discriminate|].
  rewrite Hlen. split.
  - apply aligned_length.
  - intros i p. apply aligned_invalid.
Qed.

(** X14. The number of results of an answer is not checked against the
    number of locations: when all points are valid and fit in one batch,
    the result is the answer's elevations as they are, one per result. *)
Theorem answers_are_not_padded
    (fetch : nat -> list Elevation.Location -> Elevation.response)
    (pts : list Elevation.Point) (results : list (option value)) (es : list number) :
  pts <> [] ->
  forallb Elevation.valid pts = true ->
  (List.length pts <= Elevation.batchSize)%nat ->
  fetch 0%nat (Elevation.locations pts) = Elevation.Answered (Some results) ->
  Elevation.results_map results = Some es ->
  Elevation.fetchElevationsBatch fetch (Some pts) = map Some es.
Proof.
  intros Hne Hall Hlen Hf Hes.
  assert (Hfil : filter Elevation.valid pts = pts).
  { clear - Hall. induction pts as [|p pts IH]; simpl in *; [reflexivity|].
    apply andb_true_iff in Hall as [-> Hall]. now rewrite IH. }
  unfold Elevation.fetchElevationsBatch.
  destruct pts as [|p0 pts0]; [congruence|].
  set (pts := p0 :: pts0) in *.
  rewrite Hfil, Nat.eqb_refl. f_equal.
  rewrite batch_loop_concat.
  assert (Hturns : Elevation.turns (List.length pts) = 1%nat).
  { unfold Elevation.turns.
    assert (Hpos : (1 <= List.length pts)%nat) by (simpl; lia).
    revert Hlen Hpos. generalize (List.length pts).
    assert (Hb : Elevation.batchSize <> 0%nat) by discriminate.
    generalize dependent Elevation.batchSize. intros b Hb n Hn Hpos.
    pose proof (Nat.div_mod_eq (n + (b - 1)) b) as E.
    pose proof (Nat.mod_upper_bound (n + (b - 1)) b Hb) as Hr.
    nia. }
  rewrite Hturns. change (seq 0 1) with [0%nat].
  cbn [map List.concat]. rewrite app_nil_r.
  assert (Hb0 : Elevation.batch pts 0 = pts).
  { rewrite batch_is_slice. change (0 * Elevation.batchSize)%nat with 0%nat.
    cbn [skipn]. apply firstn_all2. exact Hlen. }
  rewrite Hb0, Hf. unfold Elevation.pushed. now rewrite Hes.
Qed.

Lemma failed_requests_give_zeros_witness :
  Elevation.fetchElevationsBatch (fun _ _ => Elevation.Rejected)
    (Some [ {| Elevation.lat := Num (Fin 48); Elevation.lng := Num (Fin 11) |};
            {| Elevation.lat := Str "48"; Elevation.lng := Num (Fin 11) |};
            {| Elevation.lat := Num (Fin 49); Elevation.lng := Num (Fin 12) |} ])
  = [Some (Fin 0); Some (Fin 0); Some (Fin 0)].
Proof.
  rewrite failed_requests_give_zeros; [reflexivity|].
  intros k locs. now left.
Defined.

Lemma elevations_are_aligned_witness :
  let answer := fun (_ : nat) (locs : list Elevation.Location) =>
    Elevation.Answered (Some (map (fun loc => Some (fst loc)) locs)) in
  Elevation.fetchElevationsBatch answer
    (Some [ {| Elevation.lat := Num (Fin 48); Elevation.lng := Num (Fin 11) |};
            {| Elevation.lat := Str "48"; Elevation.lng := Num (Fin 11) |};
            {| Elevation.lat := Num (Fin 49); Elevation.lng := Num (Fin 12) |} ])
  = [Some (Fin 48); Some (Fin 0); Some (Fin 49)].
Proof.
  intros answer.
  rewrite (elevations_are_aligned answer fst); [reflexivity|].
  intros k locs. reflexivity.
Defined.

Lemma invalid_points_get_zero_witness :
  let short := fun (_ : nat) (_ : list Elevation.Location) =>
    Elevation.Answered (Some [Some (Num (Fin 520))]) in
  let pts :=
    [ {| Elevation.lat := Num (Fin 48); Elevation.lng := Num (Fin 11) |};
      {| Elevation.lat := Num NaN; Elevation.lng := Num (Fin 11) |};
      {| Elevation.lat := Num (Fin 49); Elevation.lng := Num (Fin 12) |} ] in
  Elevation.fetchElevationsBatch short (Some pts)
    = [Some (Fin 520); Some (Fin 0); None]
  /\ List.length (Elevation.fetchElevationsBatch short (Some pts)) = 3%nat
  /\ nth_error (Elevation.fetchElevationsBatch short (Some pts)) 1 = Some (Some (Fin 0)).
Proof.
  intros short pts.
  destruct (invalid_points_get_zero short pts eq_refl) as [Hlen Hzero].
  split; [vm_compute; reflexivity|]. split; [exact Hlen|].
  apply (Hzero 1%nat {| Elevation.lat := Num NaN; Elevation.lng := Num (Fin 11) |});
    reflexivity.
Defined.

Lemma answers_are_not_padded_witness :
  let short := fun (_ : nat) (_ : list Elevation.Location) =>
    Elevation.Answered (Some [Some (Num (Fin 520))]) in
  Elevation.fetchElevationsBatch short
    (Some [ {| Elevation.lat := Num (Fin 48); Elevation.lng := Num (Fin 11) |};
            {| Elevation.lat := Num (Fin 49); Elevation.lng := Num (Fin 12) |} ])
  = [Some (Fin 520)].
Proof.
  intros short.
  apply (answers_are_not_padded short _ [Some (Num (Fin 520))] [Fin 520]);
    try reflexivity.
  - discriminate.
  - unfold Elevation.batchSize. simpl. lia.
Defined.

(** ** The elevation module: [addElevationData] *)

Section HeapFacts.

Import Elevation.

Lemma write_length (h : list PhotoObject) :
  forall a x, List.length (write h a x) = List.length h.
Proof.
  induction h as [|y h IH]; intros a x; [reflexivity|].
  destruct a; simpl; [reflexivity|]. now rewrite IH.
Qed.

Lemma read_write_same (h : list PhotoObject) :
  forall a x, (a < List.length h)%nat -> read (write h a x) a = x.
Proof.
  unfold read. induction h as [|y h IH]; intros a x Ha; simpl in Ha; [lia|].
  destruct a; simpl; [reflexivity|]. apply IH. lia.
Qed.

Lemma read_write_other (h : list PhotoObject) :
  forall a b x, a <> b -> read (write h a x) b = read h b.
Proof.
  unfold read. induction h as [|y h IH]; intros a b x Hab; [reflexivity|].
  destruct a, b; simpl; try reflexivity; try congruence.
  apply IH. congruence.
Qed.

Lemma read_write_out (h : list PhotoObject) :
  forall a x, (List.length h <= a)%nat -> write h a x = h.
Proof.
  induction h as [|y h IH]; intros a x Ha; [reflexivity|].
  destruct a; simpl in *; [lia|]. rewrite IH; [reflexivity|lia].
Qed.

(** A write that keeps the coordinates keeps them everywhere. *)
Lemma coords_write (h : list PhotoObject) (a b : nat) (x : PhotoObject) :
  coords x = coords (read h a) ->
  coords (read (write h a x) b) = coords (read h b).
Proof.
  intros Hx.
  destruct (Nat.eq_dec a b) as [<-|Hab]; [|now rewrite read_write_other].
  destruct (Nat.lt_ge_cases a (List.length h)) as [Hlt|Hge].
  - now rewrite read_write_same.
  - now rewrite read_write_out.
Qed.

Variable G : Globals.

(** The loop over [allPhotoPoints]: every object of the array ends with
    the elevation read at one of its indices and the altitude above it. *)
Lemma apply_to_photos_spec (elevations : list (option number)) :
  forall all idx h,
    let h' := apply_to_photos G elevations all idx h in
    List.length h' = List.length h /\
    (forall a, coords (read h' a) = coords (read h a)) /\
    (forall a, ~ In a all -> read h' a = read h a) /\
    (forall a, In a all -> (a < List.length h)%nat ->
       exists j,
         nth_error all j = Some a /\
         elevation (read h' a) = Some (elevation_at elevations (idx + j)) /\
         absoluteAltitude (read h' a) =
           Some (add (elevation_at elevations (idx + j)) (flightHeight G))).
Proof.
  induction all as [|pt rest IH]; intros idx h; simpl.
  - repeat split; auto. intros a [].
  - set (x := {| coords := coords (read h pt);
                 elevation := Some (elevation_at elevations idx);
                 absoluteAltitude :=
                   Some (add (elevation_at elevations idx) (flightHeight G)) |}).
    destruct (IH (S idx) (write h pt x)) as (Hlen & Hco & Hout & Hin).
    rewrite write_length in Hlen.
    split; [exact Hlen|]. split; [|split].
    + intros a. rewrite Hco. now apply coords_write.
    + intros a Ha. rewrite Hout by tauto.
      apply read_write_other. tauto.
    + intros a Ha Hlt.
      destruct (in_dec Nat.eq_dec a rest) as [Hr|Hr].
      * destruct (Hin a Hr) as (j & Hj & He & Ha'); [now rewrite write_length|].
        exists (S j). rewrite Nat.add_succ_r. auto.
      * destruct Ha as [->|Ha]; [|contradiction].
        exists 0%nat. rewrite Nat.add_0_r, (Hout a Hr), read_write_same by exact Hlt.
        auto.
Qed.

Lemma find_original_some (all : list nat) (h : list PhotoObject) (pt orig : nat) :
  find_original all h pt = Some orig ->
  In orig all /\
  strict_eq (lat (coords (read h orig))) (lat (coords (read h pt))) = true /\
  strict_eq (lng (coords (read h orig))) (lng (coords (read h pt))) = true.
Proof.
  unfold find_original. intros H. apply find_some in H as [Hin Hp].
  apply andb_true_iff in Hp. tauto.
Qed.

(** The loop over [filteredPhotoPoints] keeps a property of the objects
    of [allPhotoPoints] that a copy between objects of equal coordinates
    keeps. *)
Lemma update_filtered_keeps (good : PhotoObject -> Prop) (all : list nat) :
  (forall o1 o2,
      good o2 ->
      strict_eq (lat (coords o2)) (lat (coords o1)) = true ->
      strict_eq (lng (coords o2)) (lng (coords o1)) = true ->
      good {| coords := coords o1; elevation := elevation o2;
              absoluteAltitude := absoluteAltitude o2 |}) ->
  forall filtered h,
    let h' := update_filtered all filtered h in
    List.length h' = List.length h /\
    (forall a, coords (read h' a) = coords (read h a)) /\
    ((forall a, In a all -> (a < List.length h)%nat) ->
     (forall a, In a all -> good (read h a)) ->
     forall a, In a all -> good (read h' a)).
Proof.
  intros Hcopy. induction filtered as [|pt rest IH]; intros h; simpl.
  - auto.
  - destruct (find_original all h pt) as [orig|] eqn:E; [|apply IH].
    set (x := {| coords := coords (read h pt);
                 elevation := elevation (read h orig);
                 absoluteAltitude := absoluteAltitude (read h orig) |}).
    destruct (IH (write h pt x)) as (Hlen & Hco & Hgood).
    rewrite write_length in Hlen, Hgood.
    split; [exact Hlen|]. split.
    + intros a. rewrite Hco. now apply coords_write.
    + intros Hvalid Hall a Ha. apply Hgood; [exact Hvalid| |exact Ha].
      intros b Hb.
      destruct (Nat.eq_dec pt b) as [<-|Hne]; [|rewrite read_write_other; auto].
      rewrite read_write_same by (apply Hvalid; exact Hb).
      apply find_original_some in E as (Ho & Hlat & Hlng).
      apply Hcopy; auto.
Qed.

End HeapFacts.

Section StripFacts.

Import Elevation.

Variable G : Globals.
Variable elevations : list (option number).


Lemma stripPoints_nth (base : nat) :
  forall latlngs idx j sp,
    nth_error (stripPoints G elevations base latlngs idx) j = Some sp ->
    nth_error latlngs j = Some (vertex sp) /\
    strip_elevation sp = elevation_at elevations (base + (idx + j)) /\
    strip_absoluteAltitude sp = add (strip_elevation sp) (flightHeight G).
Proof.
  induction latlngs as [|ll rest IH]; intros idx j sp H.
  - destruct j; discriminate.
  - destruct j as [|j]; simpl in H.
    + inversion H; subst. simpl. rewrite Nat.add_0_r. auto.
    + apply IH in H. rewrite Nat.add_succ_r. exact H.
Qed.

Lemma assign_In {B : Type} (obj : list (nat * B)) (key : nat) (x : B) :
  forall k v, In (k, v) (assign obj key x) -> (k = key /\ v = x) \/ In (k, v) obj.
Proof.
  induction obj as [|[k0 y] obj IH]; intros k v H; simpl in H.
  - destruct H as [H|[]]. inversion H. auto.
  - destruct (k0 =? key)%nat eqn:E.
    + destruct H as [H|H].
      * inversion H; subst. apply Nat.eqb_eq in E. auto.
      * right. now right.
    + destruct H as [H|H].
      * right. now left.
      * destruct (IH _ _ H); auto. right. now right.
Qed.


(** Every entry stored for the layer group is that of one of its
    polylines, filled from the index where its vertices start. *)
Lemma store_strips_entries :
  forall layers elevationIndex obj k v,
    In (k, v) (store_strips G elevations layers elevationIndex obj) ->
    In (k, v) obj \/
    exists pre layer post,
      layers = pre ++ layer :: post /\ is_Polyline layer = true /\
      k = stamp layer /\
      v = stripPoints G elevations
            (elevationIndex + List.length (flat_map polyline_vertices pre))
            (getLatLngs layer) 0.
Proof.
  induction layers as [|layer rest IH]; intros idx obj k v H; simpl in H; [now left|].
  destruct (is_Polyline layer) eqn:Ep.
  - apply IH in H as [H|(pre & l & post & -> & Hp & Hk & Hv)].
    + apply assign_In in H as [[-> ->]|H]; [|now left].
      right. exists [], layer, rest. simpl. rewrite Nat.add_0_r. auto.
    + right. exists (layer :: pre), l, post. simpl.
      unfold polyline_vertices at 1. rewrite Ep, length_app.
      rewrite Nat.add_assoc. auto.
  - apply IH in H as [H|(pre & l & post & -> & Hp & Hk & Hv)]; [now left|].
    right. exists (layer :: pre), l, post. simpl.
    unfold polyline_vertices at 1. rewrite Ep. simpl. auto.
Qed.


End StripFacts.

Section AddElevationDataFacts.

Import Elevation.

Variable fetch : nat -> list Location -> response.
Variable G : Globals.
Variable page : Page.
Variable all : list nat.
Hypothesis all_defined : allPhotoPoints G = Some all.
Hypothesis all_not_empty : all <> [].
Hypothesis all_in_heap : forall a, In a all -> (a < List.length (heap page))%nat.

Let elevations : list (option number) :=
  fetchElevationsBatch fetch (Some (pointsToFetch G all (heap page))).

Lemma addElevationData_unfold :
  addElevationData fetch G page =
  {| heap :=
       match filteredPhotoPoints G with
       | Some filtered =>
           update_filtered all filtered (apply_to_photos G elevations all 0 (heap page))
       | None => apply_to_photos G elevations all 0 (heap page)
       end;
     stripElevations :=
       Some (match layerStrips G with
             | Some layers => store_strips G elevations layers (List.length all) []
             | None => []
             end) |}.
Proof.
  unfold addElevationData. rewrite all_defined. clear all_in_heap.
  destruct all as [|a0 rest] eqn:E; [congruence|].
  fold elevations. f_equal.
  destruct (filteredPhotoPoints G) as [[|pt filtered]|]; reflexivity.
Qed.

(** The heap after the call, for a property of the objects that the
    first loop establishes and a copy between objects of equal
    coordinates keeps. *)
Lemma addElevationData_heap (good : PhotoObject -> Prop) :
  (forall o1 o2,
      good o2 ->
      strict_eq (lat (coords o2)) (lat (coords o1)) = true ->
      strict_eq (lng (coords o2)) (lng (coords o1)) = true ->
      good {| coords := coords o1; elevation := elevation o2;
              absoluteAltitude := absoluteAltitude o2 |}) ->
  (forall a, In a all ->
     good (read (apply_to_photos G elevations all 0 (heap page)) a)) ->
  let h' := heap (addElevationData fetch G page) in
  List.length h' = List.length (heap page) /\
  (forall a, coords (read h' a) = coords (read (heap page) a)) /\
  (forall a, In a all -> good (read h' a)).
Proof.
  intros Hcopy Hfirst. rewrite addElevationData_unfold. simpl.
  destruct (apply_to_photos_spec G elevations all 0 (heap page))
    as (Hlen & Hco & _ & _).
  destruct (filteredPhotoPoints G) as [filtered|]; [|auto].
  destruct (update_filtered_keeps good all Hcopy filtered
              (apply_to_photos G elevations all 0 (heap page)))
    as (Hlen2 & Hco2 & Hgood).
  split; [congruence|]. split; [intros a; now rewrite Hco2|].
  apply Hgood; [|exact Hfirst].
  intros a Ha. rewrite Hlen. now apply all_in_heap.
Qed.

End AddElevationDataFacts.

(** X15. After [addElevationData] on a page with photo points, every
    photo point has an elevation and an absolute altitude, the altitude
    being the elevation plus the flight height ([parseFloat] of the height
    field, 0 when that is falsy or the field is absent); the same holds
    for every stored strip point; no object is added, removed or moved. *)
Theorem altitude_is_elevation_plus_height
    (fetch : nat -> list Elevation.Location -> Elevation.response)
    (G : Elevation.Globals) (page : Elevation.Page) (all : list nat) :
  Elevation.allPhotoPoints G = Some all ->
  all <> [] ->
  (forall a, In a all -> (a < List.length (Elevation.heap page))%nat) ->
  let page' := Elevation.addElevationData fetch G page in
  List.length (Elevation.heap page') = List.length (Elevation.heap page)
  /\ (forall a,
        Elevation.coords (Elevation.read (Elevation.heap page') a) =
        Elevation.coords (Elevation.read (Elevation.heap page) a))
  /\ (forall a, In a all ->
        exists e,
          Elevation.elevation (Elevation.read (Elevation.heap page') a) = Some e /\
          Elevation.absoluteAltitude (Elevation.read (Elevation.heap page') a) =
            Some (add e (Elevation.flightHeight G)))
  /\ exists obj,
       Elevation.stripElevations page' = Some obj /\
       forall key pts, In (key, pts) obj ->
         Forall (fun sp =>
                   Elevation.strip_absoluteAltitude sp =
                   add (Elevation.strip_elevation sp) (Elevation.flightHeight G))
           pts.
Proof.
  intros Hall Hne Hin page'.
  set (good := fun o : Elevation.PhotoObject =>
         exists e, Elevation.elevation o = Some e /\
                   Elevation.absoluteAltitude o = Some (add e (Elevation.flightHeight G))).
  destruct (addElevationData_heap fetch G page all Hall Hne Hin good)
    as (Hlen & Hco & Hgood).
  - intros o1 o2 (e & He & Ha) _ _. exists e. auto.
  - intros a Ha.
    destruct (apply_to_photos_spec G
                (Elevation.fetchElevationsBatch fetch
                   (Some (Elevation.pointsToFetch G all (Elevation.heap page))))
                all 0 (Elevation.heap page)) as (_ & _ & _ & Hspec).
    destruct (Hspec a Ha (Hin a Ha)) as (j & _ & He & Hab).
    eexists. split; eassumption.
  - split; [exact Hlen|]. split; [exact Hco|]. split; [exact Hgood|].
    unfold page'. rewrite (addElevationData_unfold fetch G page all Hall Hne).
    simpl. eexists. split; [reflexivity|].
    intros key pts Hk.
    destruct (Elevation.layerStrips G) as [layers|]; [|contradiction].
    apply store_strips_entries in Hk as [[]|(pre & layer & post & _ & _ & _ & ->)].
    apply Forall_forall. intros sp Hsp.
    apply In_nth_error in Hsp as [j Hj].
    apply stripPoints_nth in Hj. tauto.
Qed.


Lemma strict_eq_is_number (a b : value) :
  Elevation.strict_eq a b = true -> Elevation.is_number a = Elevation.is_number b.
Proof.
  destruct a as [|[| | |x]|s], b as [|[| | |y]|t]; simpl; try discriminate; reflexivity.
Qed.

Lemma strict_eq_valid (p q : Elevation.Point) :
  Elevation.strict_eq (Elevation.lat p) (Elevation.lat q) = true ->
  Elevation.strict_eq (Elevation.lng p) (Elevation.lng q) = true ->
  Elevation.valid p = Elevation.valid q.
Proof.
  intros H1 H2. unfold Elevation.valid.
  now rewrite (strict_eq_is_number _ _ H1), (strict_eq_is_number _ _ H2).
Qed.

Section Pointwise.

Import Elevation.

Variable fetch : nat -> list Location -> response.
Variable G : Globals.
Variable page : Page.
Variable all : list nat.
Variable g : Point -> number.
Hypothesis all_defined : allPhotoPoints G = Some all.
Hypothesis all_not_empty : all <> [].
Hypothesis all_in_heap : forall a, In a all -> (a < List.length (heap page))%nat.

(** The elevation a point ends with: [elevations[idx] || 0]. *)
Let E (p : Point) : number := or (if valid p then g p else Fin 0) (Fin 0).

Hypothesis fetched :
  fetchElevationsBatch fetch (Some (pointsToFetch G all (heap page))) =
  map (fun p => Some (if valid p then g p else Fin 0)) (pointsToFetch G all (heap page)).
Hypothesis E_of_equal_coordinates :
  forall p q,
    strict_eq (lat p) (lat q) = true -> strict_eq (lng p) (lng q) = true ->
    E p = E q.

Lemma elevation_at_fetched (idx : nat) (p : Point) :
  nth_error (pointsToFetch G all (heap page)) idx = Some p ->
  elevation_at (fetchElevationsBatch fetch (Some (pointsToFetch G all (heap page)))) idx
  = E p.
Proof.
  intros H. unfold elevation_at. rewrite fetched, nth_error_map, H. reflexivity.
Qed.

Lemma addElevationData_pointwise :
  let page' := addElevationData fetch G page in
  (forall a, In a all ->
     elevation (read (heap page') a) = Some (E (coords (read (heap page) a))) /\
     absoluteAltitude (read (heap page') a) =
       Some (add (E (coords (read (heap page) a))) (flightHeight G)))
  /\ exists obj,
       stripElevations page' = Some obj /\
       forall key pts, In (key, pts) obj ->
         Forall (fun sp => strip_elevation sp = E (vertex sp)) pts.
Proof.
  intros page'. split.
  - set (good := fun o : PhotoObject =>
           elevation o = Some (E (coords o)) /\
           absoluteAltitude o = Some (add (E (coords o)) (flightHeight G))).
    destruct (addElevationData_heap fetch G page all all_defined all_not_empty
                all_in_heap good) as (_ & Hco & Hgood).
    + intros o1 o2 [He Ha] Hlat Hlng. unfold good. simpl.
      now rewrite <- (E_of_equal_coordinates o2.(coords) o1.(coords) Hlat Hlng).
    + intros a Ha.
      destruct (apply_to_photos_spec G
                  (fetchElevationsBatch fetch (Some (pointsToFetch G all (heap page))))
                  all 0 (heap page)) as (_ & Hco & _ & Hspec).
      destruct (Hspec a Ha (all_in_heap a Ha)) as (j & Hj & He & Hab).
      assert (Hp : nth_error (pointsToFetch G all (heap page)) (0 + j)
                   = Some (coords (read (heap page) a))).
      { unfold pointsToFetch. rewrite nth_error_app1.
        - change (0 + j)%nat with j. now rewrite nth_error_map, Hj.
        - rewrite length_map. apply nth_error_Some. simpl. congruence. }
      rewrite (elevation_at_fetched _ _ Hp) in He, Hab.
      unfold good. now rewrite Hco.
    + intros a Ha. destruct (Hgood a Ha) as [He Hab].
      unfold page'. now rewrite <- (Hco a).
  - unfold page'. rewrite (addElevationData_unfold fetch G page all all_defined all_not_empty).
    simpl. eexists. split; [reflexivity|].
    intros key pts Hk.
    destruct (layerStrips G) as [layers|] eqn:El; [|contradiction].
    apply store_strips_entries in Hk as [[]|(pre & layer & post & Hl & Hp & _ & ->)].
    apply Forall_forall. intros sp Hsp.
    apply In_nth_error in Hsp as [j Hj].
    apply stripPoints_nth in Hj as (Hv & He & _).
    rewrite He. apply elevation_at_fetched.
    unfold pointsToFetch, strip_vertices. rewrite El, Hl.
    rewrite flat_map_app. simpl flat_map.
    unfold polyline_vertices at 2. rewrite Hp.
    rewrite nth_error_app2 by (rewrite length_map; lia).
    rewrite nth_error_app2 by (rewrite length_map; lia).
    rewrite length_map.
    replace (List.length all + List.length (flat_map polyline_vertices pre) + (0 + j)
             - List.length all - List.length (flat_map polyline_vertices pre))%nat
      with j by lia.
    rewrite nth_error_app1; [exact Hv|].
    apply nth_error_Some. congruence.
Qed.

End Pointwise.

Lemma altitude_is_elevation_plus_height_witness :
  let page' :=
    Elevation.addElevationData SamplePage.service SamplePage.globals SamplePage.page in
  map Elevation.elevation (Elevation.heap page') = [Some (Fin 480); Some (Fin 490)]
  /\ map Elevation.absoluteAltitude (Elevation.heap page')
     = [Some (Fin 580); Some (Fin 590)]
  /\ exists e,
       Elevation.elevation (Elevation.read (Elevation.heap page') 1) = Some e /\
       Elevation.absoluteAltitude (Elevation.read (Elevation.heap page') 1) =
         Some (add e (Elevation.flightHeight SamplePage.globals)).
Proof.
  intros page'.
  split; [vm_compute; reflexivity|]. split; [vm_compute; reflexivity|].
  destruct (altitude_is_elevation_plus_height SamplePage.service SamplePage.globals
              SamplePage.page [0; 1]%nat eq_refl)
    as (_ & _ & H & _).
  - discriminate.
  - intros a [<-|[<-|[]]]; simpl; lia.
  - apply H. right. now left.
Defined.


(** X17. Against a service that answers every request with one result
    per location, the elevation depending on the location only, every
    photo point and every stored strip point ends with the elevation
    answered for its own coordinates (0 when the coordinates are not
    numbers, or the answer is not a number, [NaN] or 0), and every photo
    point with that elevation plus the flight height as absolute
    altitude. *)
Theorem elevations_follow_the_coordinates
    (fetch : nat -> list Elevation.Location -> Elevation.response)
    (G : Elevation.Globals) (page : Elevation.Page) (all : list nat)
    (elev : Elevation.Location -> value) :
  Elevation.allPhotoPoints G = Some all ->
  all <> [] ->
  (forall a, In a all -> (a < List.length (Elevation.heap page))%nat) ->
  (forall k locs,
      fetch k locs = Elevation.Answered (Some (map (fun loc => Some (elev loc)) locs))) ->
  (forall p q,
      Elevation.strict_eq (Elevation.lat p) (Elevation.lat q) = true ->
      Elevation.strict_eq (Elevation.lng p) (Elevation.lng q) = true ->
      elev (Elevation.lat p, Elevation.lng p) = elev (Elevation.lat q, Elevation.lng q)) ->
  let at_ p :=
    or (if Elevation.valid p
        then Elevation.elevation_or_0 (elev (Elevation.lat p, Elevation.lng p))
        else Fin 0) (Fin 0) in
  let page' := Elevation.addElevationData fetch G page in
  (forall a, In a all ->
     Elevation.elevation (Elevation.read (Elevation.heap page') a) =
       Some (at_ (Elevation.coords (Elevation.read (Elevation.heap page) a))) /\
     Elevation.absoluteAltitude (Elevation.read (Elevation.heap page') a) =
       Some (add (at_ (Elevation.coords (Elevation.read (Elevation.heap page) a)))
               (Elevation.flightHeight G)))
  /\ exists obj,
       Elevation.stripElevations page' = Some obj /\
       forall key pts, In (key, pts) obj ->
         Forall (fun sp => Elevation.strip_elevation sp = at_ (Elevation.vertex sp)) pts.
Proof.
  intros Hall Hne Hin Hf Hcompat at_ page'.
  apply (addElevationData_pointwise fetch G page all
           (fun p => Elevation.elevation_or_0 (elev (Elevation.lat p, Elevation.lng p)))
           Hall Hne Hin).
  - apply fetchElevationsBatch_pointwise.
    intros k _. rewrite Hf. unfold Elevation.pushed.
    rewrite results_map_answers. unfold Elevation.locations. now rewrite map_map.
  - intros p q Hlat Hlng.
    now rewrite (strict_eq_valid p q Hlat Hlng), (Hcompat p q Hlat Hlng).
Qed.

(** X18. When every request fails (or is answered without a [results]
    array), every photo point ends with elevation 0 and the flight height
    as absolute altitude, and every stored strip point with elevation 0. *)
Theorem failed_requests_leave_the_flight_height
    (fetch : nat -> list Elevation.Location -> Elevation.response)
    (G : Elevation.Globals) (page : Elevation.Page) (all : list nat) :
  Elevation.allPhotoPoints G = Some all ->
  all <> [] ->
  (forall a, In a all -> (a < List.length (Elevation.heap page))%nat) ->
  (forall k locs,
      fetch k locs = Elevation.Rejected \/ fetch k locs = Elevation.Answered None) ->
  let page' := Elevation.addElevationData fetch G page in
  (forall a, In a all ->
     Elevation.elevation (Elevation.read (Elevation.heap page') a) = Some (Fin 0) /\
     Elevation.absoluteAltitude (Elevation.read (Elevation.heap page') a) =
       Some (add (Fin 0) (Elevation.flightHeight G)))
  /\ exists obj,
       Elevation.stripElevations page' = Some obj /\
       forall key pts, In (key, pts) obj ->
         Forall (fun sp => Elevation.strip_elevation sp = Fin 0) pts.
Proof.
  intros Hall Hne Hin Hf page'.
  assert (Hz : forall p : Elevation.Point,
             or (if Elevation.valid p then Fin 0 else Fin 0) (Fin 0) = Fin 0)
    by (intros p; now destruct (Elevation.valid p)).
  destruct (addElevationData_pointwise fetch G page all (fun _ => Fin 0) Hall Hne Hin)
    as (Hphotos & obj & Hobj & Hstrips).
  - apply fetchElevationsBatch_pointwise.
    intros k _. rewrite <- zeros_map.
    destruct (Hf k (Elevation.locations
                      (Elevation.batch
                         (filter Elevation.valid
                            (Elevation.pointsToFetch G all (Elevation.heap page))) k)))
      as [-> | ->]; reflexivity.
  - intros p q _ _. now rewrite !Hz.
  - split.
    + intros a Ha. destruct (Hphotos a Ha) as [He Hab].
      rewrite Hz in He, Hab. auto.
    + exists obj. split; [exact Hobj|].
      intros key pts Hk. eapply Forall_impl; [|exact (Hstrips key pts Hk)].
      simpl. intros sp ->. apply Hz.
Qed.

Lemma elevations_follow_the_coordinates_witness :
  let page' :=
    Elevation.addElevationData SamplePage.service SamplePage.globals SamplePage.page in
  Elevation.elevation (Elevation.read (Elevation.heap page') 0) = Some (Fin 480)
  /\ Elevation.stripElevations page'
     = Some [ (7%nat,
               [ {| Elevation.vertex := SamplePage.point 48 11;
                    Elevation.strip_elevation := Fin 480;
                    Elevation.strip_absoluteAltitude := Fin 580 |};
                 {| Elevation.vertex := SamplePage.point 50 13;
                    Elevation.strip_elevation := Fin 500;
                    Elevation.strip_absoluteAltitude := Fin 600 |} ]) ].
Proof.
  intros page'.
  destruct (elevations_follow_the_coordinates SamplePage.service SamplePage.globals
              SamplePage.page [0; 1]%nat SamplePage.ground eq_refl)
    as (H & _).
  - discriminate.
  - intros a [<-|[<-|[]]]; simpl; lia.
  - intros k locs. reflexivity.
  - intros p q Hlat _. unfold SamplePage.ground. simpl.
    destruct (Elevation.lat p) as [|[| | |x]|s], (Elevation.lat q) as [|[| | |y]|t];
      simpl in Hlat; try discriminate; try reflexivity.
    f_equal. apply fin_eq. apply Qeq_bool_iff in Hlat. now rewrite Hlat.
  - split; [|vm_compute; reflexivity].
    destruct (H 0%nat (or_introl eq_refl)) as [He _]. unfold page'. rewrite He.
    vm_compute. reflexivity.
Defined.

Lemma failed_requests_leave_the_flight_height_witness :
  let page' :=
    Elevation.addElevationData SamplePage.down SamplePage.globals SamplePage.page in
  map Elevation.absoluteAltitude (Elevation.heap page') = [Some (Fin 100); Some (Fin 100)]
  /\ Elevation.elevation (Elevation.read (Elevation.heap page') 1) = Some (Fin 0).
Proof.
  intros page'.
  destruct (failed_requests_leave_the_flight_height SamplePage.down SamplePage.globals
              SamplePage.page [0; 1]%nat eq_refl)
    as (H & _).
  - discriminate.
  - intros a [<-|[<-|[]]]; simpl; lia.
  - intros k locs. now left.
  - split; [vm_compute; reflexivity|].
    unfold page'. apply (H 1%nat). right. now left.
Defined.

(** ** The KML module *)

Lemma replace_all_same (c : ascii) :
  forall s, Kml.replace_all c (String c EmptyString) s = s.
Proof.
  induction s as [|x s IH]; simpl; [reflexivity|].
  destruct (Ascii.eqb x c) eqn:E; rewrite IH; [|reflexivity].
  apply Ascii.eqb_eq in E. now subst.
Qed.

(** X19. [escapeXml] gives the empty string for [undefined] and [null]
    and every string back as it is: each of its three replacements puts
    the character it matches, so [&], [<] and [>] are not escaped. *)
Theorem escapeXml_changes_nothing (str : option string) :
  Kml.escapeXml str = match str with Some s => s | None => EmptyString end.
Proof.
  destruct str as [s|]; [|reflexivity].
  unfold Kml.escapeXml. now rewrite !replace_all_same.
Qed.
